(** * instagram_follower_compare: a shallow embedding and its properties

    The script reads two Instagram export files, extracts two sets of
    account names, subtracts one from the other and writes the sorted
    difference to a text file.

    The embedding follows [instagram_follower_compare.py] function by
    function.  Python values coming out of [json.load] are the type [json];
    a Python [set] is a list of hashable values without two equal keys;
    exceptions are the constructor [Raise] of [result]; the file system and
    the lines printed on standard output are an explicit [world] threaded
    through a small state-and-exception monad. *)

From Stdlib Require Import List String Ascii Bool ZArith Lia.
From Stdlib Require Import Sorting.Sorted Sorting.Permutation.
From Stdlib Require Import Floats.SpecFloat.
From Stdlib Require Import Numbers.DecimalString.
From Stdlib Require Import Structures.OrderedTypeEx.
Import ListNotations.

Local Open Scope string_scope.
Local Open Scope list_scope.

(** ** Exceptions and the exception monad *)

Inductive exn : Type :=
| FileNotFoundError (filepath : string)   (* raised by [load_json_file] itself *)
| NoSuchFileOrDirectory (filepath : string)
                                          (* the [FileNotFoundError] of [open] *)
| JSONDecodeError                         (* [json.load]: the text is not JSON *)
| ValueError                              (* [json.load]: an integer too long to convert *)
| RecursionError                          (* [json.load]: the text nests too deep *)
| UnicodeDecodeError                      (* reading bytes that are not UTF-8 *)
| UnicodeEncodeError                      (* writing text that has no UTF-8 encoding *)
| TypeError                               (* wrong dynamic type of an operand *)
| KeyError                                (* [d[k]] with [k] not in [d] *)
| OSError.                                (* [open] on a directory, without permission *)

Inductive result (A : Type) : Type :=
| Ok (a : A)
| Raise (e : exn).

Arguments Ok {A} a.
Arguments Raise {A} e.

Definition bind {A B : Type} (r : result A) (k : A -> result B) : result B :=
  match r with
  | Ok a => k a
  | Raise e => Raise e
  end.

Declare Scope result_scope.
Delimit Scope result_scope with result.
Notation "x <- r ;; k" := (bind r (fun x => k))
  (at level 61, r at next level, right associativity) : result_scope.
Local Open Scope result_scope.

Definition returns {A : Type} (r : result A) : bool :=
  match r with Ok _ => true | Raise _ => false end.

(** [for x in xs: body], the loop state passed explicitly; an exception in
    the body leaves the loop at once. *)
Fixpoint for_each {A S : Type} (xs : list A) (body : A -> S -> result S) (s : S)
  : result S :=
  match xs with
  | [] => Ok s
  | x :: xs' => s' <- body x s ;; for_each xs' body s'
  end.

(** ** Parsed JSON: the values [json.load] produces

    [None], [bool], [int], [float], [str], [list] and [dict].  A float is a
    [spec_float] (sign, mantissa, exponent; zeros, infinities and NaN, which
    [json.load] accepts).  A [dict] is the list of its items in insertion
    order; its keys are strings. *)

#[local] Set Warnings "-register-all".

Inductive json : Type :=
| JNull
| JBool (b : bool)
| JInt (z : Z)
| JFloat (f : spec_float)
| JStr (s : string)
| JArr (items : list json)
| JObj (fields : list (string * json)).

(** [d.get(k)]: the value bound to [k] in a dict. *)
Fixpoint dict_get (key : string) (fields : list (string * json)) : option json :=
  match fields with
  | [] => None
  | (k, v) :: rest => if String.eqb key k then Some v else dict_get key rest
  end.

Definition is_some {A : Type} (o : option A) : bool :=
  match o with Some _ => true | None => false end.

Definition is_str (key : string) (v : json) : bool :=
  match v with JStr s => String.eqb key s | _ => false end.

(** [needle in hay] for two strings: [needle] occurs as a substring. *)
Fixpoint substring_of (needle hay : string) : bool :=
  String.prefix needle hay ||
  match hay with
  | EmptyString => false
  | String _ hay' => substring_of needle hay'
  end.

Definition chars_of (s : string) : list json :=
  map (fun c => JStr (String c EmptyString)) (list_ascii_of_string s).

(** [iter(v)], as a [for] statement uses it: the items of a list, the keys
    of a dict, the characters of a string; anything else is not iterable. *)
Definition py_iter (v : json) : result (list json) :=
  match v with
  | JArr items => Ok items
  | JObj fields => Ok (map (fun kv => JStr (fst kv)) fields)
  | JStr s => Ok (chars_of s)
  | _ => Raise TypeError
  end.

(** [key in v] for a string [key]: key membership in a dict, element
    membership in a list (only a string equal to [key] is [==] to it), the
    substring test on a string; [TypeError] on [None] and on numbers. *)
Definition py_contains (key : string) (v : json) : result bool :=
  match v with
  | JObj fields => Ok (is_some (dict_get key fields))
  | JArr items => Ok (existsb (is_str key) items)
  | JStr s => Ok (substring_of key s)
  | _ => Raise TypeError
  end.

(** [v[key]] for a string [key]: defined on dicts only; list and string
    indices must be integers, the other values are not subscriptable. *)
Definition py_getitem (v : json) (key : string) : result json :=
  match v with
  | JObj fields =>
      match dict_get key fields with
      | Some x => Ok x
      | None => Raise KeyError
      end
  | _ => Raise TypeError
  end.

(** ** Numbers and the equality used by sets

    [bool], [int] and [float] compare by exact numeric value
    ([True == 1 == 1.0]).  A finite number is [m * 2^e]. *)

Inductive xnum : Type :=
| XNan
| XInf (neg : bool)
| XFin (m e : Z).

Definition xnum_of_float (f : spec_float) : xnum :=
  match f with
  | S754_zero _ => XFin 0 0
  | S754_infinity s => XInf s
  | S754_nan => XNan
  | S754_finite s m e => XFin (if s then Z.neg m else Z.pos m) e
  end.

Definition as_number (v : json) : option xnum :=
  match v with
  | JBool b => Some (XFin (Z.b2z b) 0)
  | JInt z => Some (XFin z 0)
  | JFloat f => Some (xnum_of_float f)
  | _ => None
  end.

Definition scale (m e k : Z) : Z := m * 2 ^ (e - k).

(** Set lookup compares with [x is y or x == y].  All NaNs of one parse are
    the single object [json.decoder.NaN], so NaN meets itself by identity. *)
Definition xnum_eqb (a b : xnum) : bool :=
  match a, b with
  | XNan, XNan => true
  | XInf s, XInf t => Bool.eqb s t
  | XFin m1 e1, XFin m2 e2 =>
      let k := Z.min e1 e2 in Z.eqb (scale m1 e1 k) (scale m2 e2 k)
  | _, _ => false
  end.

(** [a < b] on numbers; every comparison with NaN is false. *)
Definition xnum_ltb (a b : xnum) : bool :=
  match a, b with
  | XNan, _ | _, XNan => false
  | XInf s, XInf t => s && negb t
  | XInf s, XFin _ _ => s
  | XFin _ _, XInf t => negb t
  | XFin m1 e1, XFin m2 e2 =>
      let k := Z.min e1 e2 in Z.ltb (scale m1 e1 k) (scale m2 e2 k)
  end.

(** Lists and dicts are unhashable. *)
Definition hashable (v : json) : bool :=
  match v with
  | JArr _ | JObj _ => false
  | _ => true
  end.

(** Equality of two hashable values as a set sees it. *)
Definition key_eqb (a b : json) : bool :=
  match a, b with
  | JNull, JNull => true
  | JStr s, JStr t => String.eqb s t
  | _, _ =>
      match as_number a, as_number b with
      | Some x, Some y => xnum_eqb x y
      | _, _ => false
      end
  end.

(** ** Python sets

    The elements in the order they were first added.  Python's own
    iteration order is by hash and is not modelled: the code observes a set
    through membership, [len], truth value and [sorted] only. *)

Definition pyset : Type := list json.

Definition set_mem (v : json) (s : pyset) : bool := existsb (key_eqb v) s.

(** [s.add(v)]: [TypeError] when [v] is unhashable; a value equal to an
    element already there leaves the set as it is. *)
Definition set_add (v : json) (s : pyset) : result pyset :=
  if hashable v then Ok (if set_mem v s then s else s ++ [v])
  else Raise TypeError.

(** [a - b] *)
Definition set_diff (a b : pyset) : pyset :=
  filter (fun x => negb (set_mem x b)) a.

(** [len(s)] and the truth value of [s]. *)
Definition len (s : pyset) : nat := List.length s.

Definition truthy (s : pyset) : bool :=
  match s with [] => false | _ :: _ => true end.

(** No two elements with equal keys, and hashable elements only. *)
Fixpoint wf_set (s : pyset) : bool :=
  match s with
  | [] => true
  | x :: s' => hashable x && negb (set_mem x s') && wf_set s'
  end.

(** ** The extractors and the differ *)

Definition extract_followers (data : json) : result pyset :=
  entries <- py_iter data ;;
  for_each entries (fun entry usernames =>
    present <- py_contains "string_list_data" entry ;;
    if (present : bool) then
      string_list_data <- py_getitem entry "string_list_data" ;;
      items <- py_iter string_list_data ;;
      for_each items (fun item usernames =>
        has_value <- py_contains "value" item ;;
        if (has_value : bool) then
          value <- py_getitem item "value" ;;
          set_add value usernames
        else Ok usernames) usernames
    else Ok usernames) [].

Definition extract_following (data : json) : result pyset :=
  present <- py_contains "relationships_following" data ;;
  if (present : bool) then
    relationships_following <- py_getitem data "relationships_following" ;;
    entries <- py_iter relationships_following ;;
    for_each entries (fun entry usernames =>
      has_title <- py_contains "title" entry ;;
      if (has_title : bool) then
        title <- py_getitem entry "title" ;;
        set_add title usernames
      else Ok usernames) []
  else Ok [].

Definition find_non_followers (following followers : pyset) : pyset :=
  set_diff following followers.

(** ** Ordering and formatting, as [sorted] and an f-string use them *)

(** [a < b] on hashable values: strings character by character, by
    character code; numbers by value; [None], and a string against a
    number, are not ordered. *)
Definition py_lt (a b : json) : result bool :=
  match a, b with
  | JStr s, JStr t => Ok (String.ltb s t)
  | _, _ =>
      match as_number a, as_number b with
      | Some x, Some y => Ok (xnum_ltb x y)
      | _, _ => Raise TypeError
      end
  end.

(** One step of a stable insertion: [x] goes before the first element it
    is smaller than. *)
Fixpoint insort (x : json) (sorted : list json) : result (list json) :=
  match sorted with
  | [] => Ok [x]
  | y :: rest =>
      lt <- py_lt x y ;;
      if (lt : bool) then Ok (x :: y :: rest)
      else rest' <- insort x rest ;; Ok (y :: rest')
  end.

(** [sorted(users)].  Only [<] is used.  With a NaN among other numbers
    the order Python returns depends on the iteration order of the set,
    which this model does not have; on strings the result is the one sorted
    arrangement. *)
Definition py_sorted (users : pyset) : result (list json) :=
  for_each users insort [].

Definition bool_str (b : bool) : string := if b then "True" else "False".

Definition newline : string := String (ascii_of_nat 10) EmptyString.

(** ** Text and its encoding

    A Python string is modelled by the bytes of its UTF-8 encoding.  A lone
    surrogate, which [json.load] produces from an escape such as
    [\ud83d] and which has no UTF-8 encoding, is modelled by the three
    bytes the encoding scheme would give it: 0xED, then a byte from 0xA0
    to 0xBF, then a continuation byte.  A string can be written to a UTF-8
    file exactly when it holds no such sequence. *)

Definition surrogate_lead (c d : ascii) : bool :=
  (nat_of_ascii c =? 237)%nat &&
  (160 <=? nat_of_ascii d)%nat && (nat_of_ascii d <=? 191)%nat.

Fixpoint encodable (s : string) : bool :=
  match s with
  | EmptyString => true
  | String c rest =>
      match rest with
      | String d _ => negb (surrogate_lead c d)
      | EmptyString => true
      end && encodable rest
  end.

(** What [json.load] makes of a text. *)
Inductive parse : Type :=
| Parsed (data : json)
| Invalid      (* not valid JSON: [JSONDecodeError] *)
| TooLong      (* an integer beyond the conversion limit: [ValueError] *)
| TooDeep.     (* nesting beyond the recursion limit: [RecursionError] *)

Section Runtime.

(** What the script takes from the Python runtime: the JSON parser and the
    printed form of a float. *)
Variable json_loads : string -> parse.
Variable float_repr : spec_float -> string.

(** [f"{user}"] *)
Definition py_str (v : json) : string :=
  match v with
  | JNull => "None"
  | JBool b => bool_str b
  | JInt z => NilZero.string_of_int (Z.to_int z)
  | JFloat f => float_repr f
  | JStr s => s
  | JArr _ | JObj _ => ""   (* unhashable: never an element of a set *)
  end.

(** ** The world: files and standard output *)

Inductive node : Type :=
| File (text : string)   (* a regular file holding the UTF-8 encoding of [text] *)
| Binary                 (* a regular file whose bytes are not UTF-8 *)
| Locked                 (* exists, but the [open] the script does on it raises:
                            a directory, a file without the permission needed *)
| Dangling.              (* a link to nowhere: does not exist, cannot be created *)

Definition filesystem : Type := string -> option node.

(** One constructor per [print] call of [main]. *)
Inductive line : Type :=
| Title                          (* Instagram Follower Comparison Script *)
| Rule                           (* "=" * 40 *)
| LoadingFollowers (p : string)  (* Loading followers from: p *)
| LoadingFollowing (p : string)  (* Loading following from: p *)
| ExtractingUsernames            (* Extracting usernames... *)
| FoundFollowers (n : nat)       (* Found n followers *)
| FoundFollowing (n : nat)       (* Found n accounts you're following *)
| FoundNonFollowers (n : nat)    (* Found n users who don't follow you back *)
| ResultsSavedTo (p : string)    (* Results saved to: p *)
| EveryoneFollowsBack            (* Everyone you follow also follows you back! *)
| ErrorLine (e : exn)            (* Error: e *)
| MakeSureYouHave                (* Make sure you have: *)
| Step1Requested                 (* 1. Requested your Instagram data ... *)
| Step2Extracted                 (* 2. Extracted the ZIP file *)
| Step3Placed                    (* 3. Placed the folder next to this script *)
| InvalidJSONFormat (e : exn)    (* Error: Invalid JSON format - e *)
| MayBeCorrupted                 (* The JSON files may be corrupted. ... *)
| UnexpectedError (e : exn).     (* Unexpected error: e *)

Record world : Type := mkWorld {
  files : filesystem;
  stdout : list line
}.

Definition io (A : Type) : Type := world -> world * result A.

Definition io_ret {A : Type} (a : A) : io A := fun w => (w, Ok a).

Definition io_raise {A : Type} (e : exn) : io A := fun w => (w, Raise e).

Definition io_bind {A B : Type} (m : io A) (k : A -> io B) : io B :=
  fun w =>
    match m w with
    | (w', Ok a) => k a w'
    | (w', Raise e) => (w', Raise e)
    end.

Definition lift {A : Type} (r : result A) : io A := fun w => (w, r).

(** [try: suite / except ... as e: handler e] *)
Definition try_except {A : Type} (suite : io A) (handler : exn -> io A) : io A :=
  fun w =>
    match suite w with
    | (w', Ok a) => (w', Ok a)
    | (w', Raise e) => handler e w'
    end.

Fixpoint io_for_each {A : Type} (xs : list A) (body : A -> io unit) : io unit :=
  match xs with
  | [] => io_ret tt
  | x :: xs' => io_bind (body x) (fun _ => io_for_each xs' body)
  end.

(** [print(...)], on a standard output that can show every line. *)
Definition print (l : line) : io unit :=
  fun w => (mkWorld (files w) (stdout w ++ [l]), Ok tt).

(** [os.path.exists] and [Path.exists], where the directories on the way
    can be searched. *)
Definition exists_at (fs : filesystem) (p : string) : bool :=
  match fs p with
  | Some (File _) | Some Binary | Some Locked => true
  | Some Dangling | None => false
  end.

Definition path_exists (p : string) : io bool :=
  fun w => (w, Ok (exists_at (files w) p)).

Definition set_file (p : string) (n : node) (fs : filesystem) : filesystem :=
  fun q => if String.eqb q p then Some n else fs q.

(** [open(p, 'r', encoding='utf-8')] followed by reading the whole file. *)
Definition open_read (p : string) : io string :=
  fun w =>
    match files w p with
    | Some (File text) => (w, Ok text)
    | Some Binary => (w, Raise UnicodeDecodeError)
    | Some Locked => (w, Raise OSError)
    | Some Dangling | None => (w, Raise (NoSuchFileOrDirectory p))
    end.

(** [open(p, 'w', encoding='utf-8')]: creates the file or empties it. *)
Definition open_write (p : string) : io unit :=
  fun w =>
    match files w p with
    | Some Locked => (w, Raise OSError)
    | Some Dangling => (w, Raise (NoSuchFileOrDirectory p))
    | Some (File _) | Some Binary | None =>
        (mkWorld (set_file p (File "") (files w)) (stdout w), Ok tt)
    end.

(** [f.write(s)] on the file opened at [p]: appends the encoding of [s];
    a text without encoding raises and leaves what was written before. *)
Definition file_write (p : string) (s : string) : io unit :=
  fun w =>
    match files w p with
    | Some (File text) =>
        if encodable s then
          (mkWorld (set_file p (File (text ++ s)) (files w)) (stdout w), Ok tt)
        else (w, Raise UnicodeEncodeError)
    | _ => (w, Raise OSError)
    end.

Declare Scope io_scope.
Delimit Scope io_scope with io.
Notation "x <- m ;; k" := (io_bind m (fun x => k))
  (at level 61, m at next level, right associativity) : io_scope.

(** ** The loader and the reporter *)

Definition load_json_file (filepath : string) : io json :=
  (found <- path_exists filepath ;;
   if negb found then io_raise (FileNotFoundError filepath)
   else
     text <- open_read filepath ;;
     match json_loads text with
     | Parsed data => io_ret data
     | Invalid => io_raise JSONDecodeError
     | TooLong => io_raise ValueError
     | TooDeep => io_raise RecursionError
     end)%io.

Definition write_to_file (users : pyset) (output_path : string) : io unit :=
  (sorted_users <- lift (py_sorted users) ;;
   _ <- open_write output_path ;;
   io_for_each sorted_users (fun user =>
     file_write output_path (py_str user ++ newline)))%io.

(** ** The top-level flow

    Paths are relative to the directory of the script. *)

Definition followers_1_json : string := "followers_and_following/followers_1.json".
Definition followers_json : string := "followers_and_following/followers.json".
Definition following_json : string := "followers_and_following/following.json".
Definition not_following_back_txt : string := "not_following_back.txt".

Definition main : io unit :=
  (_ <- print Title ;;
   _ <- print Rule ;;
   let followers_path := followers_1_json in
   let following_path := following_json in
   let output_path := not_following_back_txt in
   primary <- path_exists followers_path ;;
   let followers_path := if (primary : bool) then followers_path else followers_json in
   try_except
     (_ <- print (LoadingFollowers followers_path) ;;
      followers_data <- load_json_file followers_path ;;
      _ <- print (LoadingFollowing following_path) ;;
      following_data <- load_json_file following_path ;;
      _ <- print ExtractingUsernames ;;
      followers <- lift (extract_followers followers_data) ;;
      following <- lift (extract_following following_data) ;;
      _ <- print (FoundFollowers (len followers)) ;;
      _ <- print (FoundFollowing (len following)) ;;
      let not_following_back := find_non_followers following followers in
      if truthy not_following_back then
        _ <- write_to_file not_following_back output_path ;;
        _ <- print (FoundNonFollowers (len not_following_back)) ;;
        print (ResultsSavedTo output_path)
      else
        print EveryoneFollowsBack)
     (fun e =>
        match e with
        | FileNotFoundError _ | NoSuchFileOrDirectory _ =>
            _ <- print (ErrorLine e) ;;
            _ <- print MakeSureYouHave ;;
            _ <- print Step1Requested ;;
            _ <- print Step2Extracted ;;
            print Step3Placed
        | JSONDecodeError =>
            _ <- print (InvalidJSONFormat e) ;;
            print MayBeCorrupted
        | _ => print (UnexpectedError e)
        end))%io.

End Runtime.

(** [w] after printing the lines [ls]. *)
Definition say (ls : list line) (w : world) : world :=
  mkWorld (files w) (stdout w ++ ls).

(** The followers file [main] settles on: the primary name if it exists,
    the fallback name otherwise. *)
Definition resolved_followers_path (w : world) : string :=
  if exists_at (files w) followers_1_json then followers_1_json else followers_json.

(** The lines [main] has printed when it reaches the branch on the result. *)
Definition progress_lines (followers_path : string) (followers following : pyset)
  : list line :=
  [Title; Rule; LoadingFollowers followers_path;
   LoadingFollowing following_json; ExtractingUsernames;
   FoundFollowers (len followers); FoundFollowing (len following)].

(** What a run needs to reach that branch: both files load and both
    extractors return. *)
Definition computes (json_loads : string -> parse) (w : world)
    (followers following : pyset) : Prop :=
  exists text1 text2 followers_data following_data,
    files w (resolved_followers_path w) = Some (File text1) /\
    json_loads text1 = Parsed followers_data /\
    files w following_json = Some (File text2) /\
    json_loads text2 = Parsed following_data /\
    extract_followers followers_data = Ok followers /\
    extract_following following_data = Ok following.

(** ** The documented input formats

    [ok] says what an extracted field may hold: [is_string] for the format
    Instagram documents, [hashable] for everything the extractors accept. *)

Definition is_string (v : json) : bool :=
  match v with JStr _ => true | _ => false end.

Section Shapes.

Variable ok : json -> bool.

Definition item_shape (item : json) : bool :=
  match item with
  | JObj fields =>
      match dict_get "value" fields with
      | Some v => ok v
      | None => true
      end
  | _ => false
  end.

Definition follower_entry_shape (entry : json) : bool :=
  match entry with
  | JObj fields =>
      match dict_get "string_list_data" fields with
      | Some (JArr items) => forallb item_shape items
      | Some _ => false
      | None => true
      end
  | _ => false
  end.

Definition followers_shape (data : json) : bool :=
  match data with
  | JArr entries => forallb follower_entry_shape entries
  | _ => false
  end.

Definition following_entry_shape (entry : json) : bool :=
  match entry with
  | JObj fields =>
      match dict_get "title" fields with
      | Some v => ok v
      | None => true
      end
  | _ => false
  end.

Definition following_shape (data : json) : bool :=
  match data with
  | JObj fields =>
      match dict_get "relationships_following" fields with
      | Some (JArr entries) => forallb following_entry_shape entries
      | Some _ => false
      | None => true
      end
  | _ => false
  end.

End Shapes.

Definition valid_followers : json -> bool := followers_shape is_string.
Definition valid_following : json -> bool := following_shape is_string.

(** [v] is the [value] field of some entry of the [string_list_data] list
    of some record of [data]. *)
Definition follower_value (data v : json) : Prop :=
  exists entries fields items item_fields,
    data = JArr entries /\
    In (JObj fields) entries /\
    dict_get "string_list_data" fields = Some (JArr items) /\
    In (JObj item_fields) items /\
    dict_get "value" item_fields = Some v.

(** [v] is the [title] field of some record under [relationships_following]. *)
Definition following_title (data v : json) : Prop :=
  exists fields entries entry_fields,
    data = JObj fields /\
    dict_get "relationships_following" fields = Some (JArr entries) /\
    In (JObj entry_fields) entries /\
    dict_get "title" entry_fields = Some v.

(** ** Text files as lines *)

Definition is_newline (c : ascii) : bool := Ascii.eqb c (ascii_of_nat 10).

(** The lines of a text, each without its terminating newline. *)
Fixpoint lines_of (text : string) : list string :=
  match text with
  | EmptyString => []
  | String c rest =>
      if is_newline c then EmptyString :: lines_of rest
      else
        match lines_of rest with
        | [] => [String c EmptyString]
        | l :: ls => String c l :: ls
        end
  end.

Fixpoint has_newline (s : string) : bool :=
  match s with
  | EmptyString => false
  | String c rest => is_newline c || has_newline rest
  end.

(** What [write_to_file] leaves in the file for the sorted names [ids]. *)
Definition report_text (ids : list string) : string :=
  fold_right (fun id rest => (id ++ newline ++ rest)%string) EmptyString ids.

(** [insort] and [py_sorted] read on strings. *)
Fixpoint insort_str (x : string) (sorted : list string) : list string :=
  match sorted with
  | [] => [x]
  | y :: rest => if String.ltb x y then x :: y :: rest else y :: insort_str x rest
  end.

Definition sorted_str (ids : list string) : list string :=
  fold_left (fun acc x => insort_str x acc) ids [].

Definition str_lt (a b : string) : Prop := String.ltb a b = true.
Definition str_le (a b : string) : Prop := String.ltb b a = false.

(** A write touches one path and nothing else. *)
Definition only_changes (p : string) (w w' : world) : Prop :=
  stdout w' = stdout w /\ forall q, q <> p -> files w' q = files w q.

(** The bodies of the extractors' loops, named for the proofs:
    [extract_followers_unfold] and [extract_following_unfold] show that the
    extractors are these loops. *)
Definition field_step (key : string) (item : json) (usernames : pyset)
  : result pyset :=
  present <- py_contains key item ;;
  if (present : bool) then
    v <- py_getitem item key ;;
    set_add v usernames
  else Ok usernames.

Definition entry_step (entry : json) (usernames : pyset) : result pyset :=
  present <- py_contains "string_list_data" entry ;;
  if (present : bool) then
    string_list_data <- py_getitem entry "string_list_data" ;;
    items <- py_iter string_list_data ;;
    for_each items (field_step "value") usernames
  else Ok usernames.

(** [v] is the field [key] of the dict [item]; [v] is a [value] of the
    [string_list_data] of the record [entry]. *)
Definition from_item (key : string) (item v : json) : Prop :=
  exists f, item = JObj f /\ dict_get key f = Some v.

Definition from_entry (entry v : json) : Prop :=
  exists fields items item_fields,
    entry = JObj fields /\
    dict_get "string_list_data" fields = Some (JArr items) /\
    In (JObj item_fields) items /\
    dict_get "value" item_fields = Some v.

(** What every iteration of the extractors does to the set built so far. *)
Record grows (s s' : pyset) : Prop := {
  grows_mem : forall x, set_mem x s = true -> set_mem x s' = true;
  grows_in : forall x, In x s -> In x s';
  grows_wf : wf_set s = true -> wf_set s' = true
}.

(** The body of the loop of [write_to_file]. *)
Definition write_line (float_repr : spec_float -> string) (p : string)
    (user : json) : io unit :=
  file_write p (py_str float_repr user ++ newline).

(** ** The run of [main], step by step

    Named for the proofs; [main_unrolled] shows that [main] is [main_steps]. *)

(** What the [except] clauses print for the exception [e]. *)
Definition except_lines (e : exn) : list line :=
  match e with
  | FileNotFoundError _ | NoSuchFileOrDirectory _ =>
      [ErrorLine e; MakeSureYouHave; Step1Requested; Step2Extracted; Step3Placed]
  | JSONDecodeError => [InvalidJSONFormat e; MayBeCorrupted]
  | _ => [UnexpectedError e]
  end.

(** The outcome of [load_json_file] on the files [fs]. *)
Definition read_json (json_loads : string -> parse) (fs : filesystem)
    (filepath : string) : result json :=
  match fs filepath with
  | None | Some Dangling => Raise (FileNotFoundError filepath)
  | Some Locked => Raise OSError
  | Some Binary => Raise UnicodeDecodeError
  | Some (File text) =>
      match json_loads text with
      | Parsed data => Ok data
      | Invalid => Raise JSONDecodeError
      | TooLong => Raise ValueError
      | TooDeep => Raise RecursionError
      end
  end.

Definition main_steps (json_loads : string -> parse)
    (float_repr : spec_float -> string) (w : world) : world * result unit :=
  let followers_path := resolved_followers_path w in
  let loading1 := [Title; Rule; LoadingFollowers followers_path] in
  let loading2 := loading1 ++ [LoadingFollowing following_json] in
  let extracting := loading2 ++ [ExtractingUsernames] in
  match read_json json_loads (files w) followers_path with
  | Raise e => (say (loading1 ++ except_lines e) w, Ok tt)
  | Ok followers_data =>
  match read_json json_loads (files w) following_json with
  | Raise e => (say (loading2 ++ except_lines e) w, Ok tt)
  | Ok following_data =>
  match extract_followers followers_data with
  | Raise e => (say (extracting ++ except_lines e) w, Ok tt)
  | Ok followers =>
  match extract_following following_data with
  | Raise e => (say (extracting ++ except_lines e) w, Ok tt)
  | Ok following =>
      let not_following_back := find_non_followers following followers in
      let before := say (progress_lines followers_path followers following) w in
      if truthy not_following_back then
        match write_to_file float_repr not_following_back
                not_following_back_txt before with
        | (w', Ok _) =>
            (say [FoundNonFollowers (len not_following_back);
                  ResultsSavedTo not_following_back_txt] w', Ok tt)
        | (w', Raise e) => (say (except_lines e) w', Ok tt)
        end
      else (say [EveryoneFollowsBack] before, Ok tt)
  end end end end.

(** ** Sets of strings, sets of numbers *)

Definition is_number (v : json) : bool := is_some (as_number v).

(** The strings of a set. *)
Definition ids_of (s : pyset) : list string :=
  flat_map (fun v => match v with JStr id => [id] | _ => [] end) s.

(** The sets [sorted] accepts: at most one element, or strings only, or
    numbers only. *)
Definition sortable (users : list json) : bool :=
  (List.length users <=? 1)%nat || forallb is_string users ||
  forallb is_number users.

(** What [write_to_file] gets to write of the sorted elements: the lines
    before the first one that has no encoding. *)
Fixpoint written_lines (float_repr : spec_float -> string) (users : list json)
  : string :=
  match users with
  | [] => EmptyString
  | u :: rest =>
      if encodable (py_str float_repr u)
      then (py_str float_repr u ++ newline ++ written_lines float_repr rest)%string
      else EmptyString
  end.

Definition all_encodable (float_repr : spec_float -> string) (users : list json)
  : bool :=
  forallb (fun u => encodable (py_str float_repr u)) users.

(** The [title] field of a record, if it is a dict and has one. *)
Definition title_of (entry : json) : option json :=
  match entry with
  | JObj fields => dict_get "title" fields
  | _ => None
  end.

Definition is_dict (v : json) : bool :=
  match v with JObj _ => true | _ => false end.

(** ** Sample inputs, used to run the definitions *)

Definition sample_followers : json :=
  JArr [JObj [("string_list_data",
               JArr [JObj [("value", JStr "alice"); ("timestamp", JInt 1700000000)]])];
        JObj [("title", JStr "")];
        JObj [("string_list_data",
               JArr [JObj [("href", JStr "x")];
                     JObj [("value", JStr "bob")];
                     JObj [("value", JStr "alice")]])]].

Definition sample_following : json :=
  JObj [("relationships_following",
         JArr [JObj [("title", JStr "alice"); ("string_list_data", JArr [])];
               JObj [("string_list_data", JArr [])];
               JObj [("title", JStr "carol")];
               JObj [("title", JStr "dan")]])].

(** A parser that knows two texts, the empty list and the empty object. *)
Definition tiny_loads (text : string) : parse :=
  if String.eqb text "[]" then Parsed (JArr [])
  else if String.eqb text "{}" then Parsed (JObj [])
  else Invalid.

Definition no_floats (f : spec_float) : string := EmptyString.

Definition empty_world : world := mkWorld (fun _ => None) [].

(** Both input files present, the followers file under its fallback name. *)
Definition sample_world : world :=
  mkWorld (set_file followers_json (File "[]")
             (set_file following_json (File "{}") (fun _ => None))) [].

(** A stand-in for the parser, defined on the texts of the sample files
    only: the two sample exports, a number and an empty object. *)
(** The name [\ud83d], a lone surrogate, and an export holding it. *)
Definition lone_surrogate : string :=
  String (ascii_of_nat 237) (String (ascii_of_nat 160)
    (String (ascii_of_nat 189) EmptyString)).

Definition surrogate_following : json :=
  JObj [("relationships_following",
         JArr [JObj [("title", JStr "bob")];
               JObj [("title", JStr lone_surrogate)]])].

Definition sample_loads (text : string) : parse :=
  if String.eqb text "<followers export>" then Parsed sample_followers
  else if String.eqb text "<following export>" then Parsed sample_following
  else if String.eqb text "<export with a lone surrogate>"
       then Parsed surrogate_following
  else if String.eqb text "5" then Parsed (JInt 5)
  else if String.eqb text "{}" then Parsed (JObj [])
  else Invalid.

(** The files of a run: what [followers_1.json], [followers.json] and
    [following.json] hold, if they exist. *)
Definition world_of (primary fallback following : option node) : world :=
  mkWorld (fun p =>
             if String.eqb p followers_1_json then primary
             else if String.eqb p followers_json then fallback
             else if String.eqb p following_json then following
             else None) [].

Definition report_world : world :=
  world_of (Some (File "<followers export>")) None
           (Some (File "<following export>")).

Definition surrogate_world : world :=
  world_of (Some (File "{}")) None
           (Some (File "<export with a lone surrogate>")).

Definition locked_report_world : world :=
  mkWorld (set_file not_following_back_txt Locked (files report_world)) [].

(** * Properties *)

(** ** Loops *)

Lemma for_each_invariant {A S : Type} (P : list A -> S -> Prop)
    (xs : list A) (body : A -> S -> result S) (s0 : S) :
  P [] s0 ->
  (forall done x s, In x xs -> P done s ->
     exists s', body x s = Ok s' /\ P (done ++ [x]) s') ->
  exists s', for_each xs body s0 = Ok s' /\ P xs s'.
Proof.
  intros H0 Hstep.
  assert (G : forall rest done s, (forall x, In x rest -> In x xs) -> P done s ->
            exists s', for_each rest body s = Ok s' /\ P (done ++ rest) s').
  { induction rest as [| x rest IH]; intros done s Hin HP; simpl.
    - exists s. rewrite app_nil_r. auto.
    - destruct (Hstep done x s (Hin x (or_introl eq_refl)) HP) as [s1 [E1 P1]].
      rewrite E1. simpl.
      destruct (IH (done ++ [x]) s1) as [s2 [E2 P2]]; auto.
      + intros y Hy. apply Hin. now right.
      + exists s2. split; auto. now rewrite <- app_assoc in P2. }
  apply (G xs [] s0); auto.
Qed.

Lemma for_each_raises_only {A S : Type} (Q : exn -> Prop)
    (xs : list A) (body : A -> S -> result S) :
  (forall x s e, body x s = Raise e -> Q e) ->
  forall s e, for_each xs body s = Raise e -> Q e.
Proof.
  intros Hb. induction xs as [| x xs IH]; intros s e; simpl.
  - discriminate.
  - destruct (body x s) as [s1 | e1] eqn:E; simpl.
    + apply IH.
    + intros H. inversion H; subst. eapply Hb; eauto.
Qed.

Lemma for_each_reaches_raise {A S : Type}
    (xs : list A) (body : A -> S -> result S) (x : A) :
  In x xs ->
  (forall s, returns (body x s) = false) ->
  forall s, returns (for_each xs body s) = false.
Proof.
  intros Hin Hx. induction xs as [| y xs IH]; intros s; simpl.
  - destruct Hin.
  - destruct Hin as [-> | Hin].
    + specialize (Hx s). destruct (body x s); simpl in *; congruence.
    + destruct (body y s); simpl; auto.
Qed.

Lemma for_each_preserves {A S : Type} (P : S -> Prop)
    (xs : list A) (body : A -> S -> result S) :
  (forall x s s', In x xs -> body x s = Ok s' -> P s -> P s') ->
  forall s s', for_each xs body s = Ok s' -> P s -> P s'.
Proof.
  induction xs as [| x xs IH]; intros Hb s s'; simpl.
  - intros H; inversion H; subst; auto.
  - destruct (body x s) as [s1 | e1] eqn:E; simpl; [| discriminate].
    intros H Hs. apply (IH (fun y t t' Hy => Hb y t t' (or_intror Hy)) s1 s' H).
    apply (Hb x s s1); simpl; auto.
Qed.

Lemma for_each_establishes {A S : Type} (P : S -> Prop)
    (xs : list A) (body : A -> S -> result S) (x : A) :
  In x xs ->
  (forall s s', body x s = Ok s' -> P s') ->
  (forall y s s', body y s = Ok s' -> P s -> P s') ->
  forall s s', for_each xs body s = Ok s' -> P s'.
Proof.
  intros Hin Hx Hb. induction xs as [| y xs IH]; intros s s'; simpl.
  - destruct Hin.
  - destruct (body y s) as [s1 | e1] eqn:E; simpl; [| discriminate].
    destruct Hin as [-> | Hin].
    + intros H. apply (for_each_preserves P xs body) with (s := s1); eauto.
    + eauto.
Qed.

Lemma for_each_returns {A S : Type} (xs : list A) (body : A -> S -> result S) :
  (forall x s, In x xs -> exists s', body x s = Ok s') ->
  forall s, exists s', for_each xs body s = Ok s'.
Proof.
  intros Hb s.
  destruct (for_each_invariant (fun _ _ => True) xs body s I) as [s' [E _]]; eauto.
  intros done x t Hx _. destruct (Hb x t Hx) as [t' Ht]. eauto.
Qed.

(** Where the elements of the final set come from. *)
Lemma for_each_origin {A : Type} (O : A -> json -> Prop)
    (xs : list A) (body : A -> pyset -> result pyset) :
  (forall x s s' y, body x s = Ok s' -> In y s' -> In y s \/ O x y) ->
  forall s s' y, for_each xs body s = Ok s' -> In y s' ->
    In y s \/ exists x, In x xs /\ O x y.
Proof.
  intros Hb. induction xs as [| x xs IH]; intros s s' y; simpl.
  - intros H; inversion H; subst; auto.
  - destruct (body x s) as [s1 | e1] eqn:E; simpl; [| discriminate].
    intros H Hy. destruct (IH s1 s' y H Hy) as [K | [x' [K1 K2]]].
    + destruct (Hb x s s1 y E K); eauto.
    + eauto.
Qed.

(** ** Keys and sets *)

Lemma xnum_eqb_refl (x : xnum) : xnum_eqb x x = true.
Proof.
  destruct x as [| s | m e]; simpl; auto.
  - now destruct s.
  - apply Z.eqb_refl.
Qed.

Lemma xnum_eqb_sym (x y : xnum) : xnum_eqb x y = xnum_eqb y x.
Proof.
  destruct x as [| s | m e], y as [| t | n f]; simpl; auto.
  - now destruct s, t.
  - rewrite (Z.min_comm f e). apply Z.eqb_sym.
Qed.

Lemma key_eqb_refl (v : json) : hashable v = true -> key_eqb v v = true.
Proof.
  destruct v; intros Hv; try discriminate Hv;
    cbn [key_eqb as_number]; auto using xnum_eqb_refl, String.eqb_refl.
Qed.

Lemma key_eqb_sym (a b : json) : key_eqb a b = key_eqb b a.
Proof.
  destruct a, b; cbn [key_eqb as_number];
    auto using xnum_eqb_sym, String.eqb_sym.
Qed.

Lemma key_eqb_str_l (s : string) (x : json) :
  key_eqb (JStr s) x = true -> x = JStr s.
Proof.
  destruct x; simpl; try discriminate.
  intros H. apply String.eqb_eq in H. now subst.
Qed.

Lemma key_eqb_str_r (s : string) (x : json) :
  key_eqb x (JStr s) = true -> x = JStr s.
Proof. rewrite key_eqb_sym. apply key_eqb_str_l. Qed.

Lemma key_eqb_is_string (a b : json) :
  key_eqb a b = true -> is_string a = is_string b.
Proof.
  destruct a, b; simpl; auto; try discriminate.
Qed.

Lemma set_mem_In (x : json) (s : pyset) :
  hashable x = true -> In x s -> set_mem x s = true.
Proof.
  intros Hx Hin. apply existsb_exists. exists x. auto using key_eqb_refl.
Qed.

Lemma set_mem_str (str : string) (s : pyset) :
  set_mem (JStr str) s = true <-> In (JStr str) s.
Proof.
  split.
  - intros H. apply existsb_exists in H. destruct H as [y [Hy K]].
    apply key_eqb_str_l in K. now subst.
  - now apply set_mem_In.
Qed.

Lemma set_mem_app (x : json) (s t : pyset) :
  set_mem x (s ++ t) = set_mem x s || set_mem x t.
Proof. apply existsb_app. Qed.

Lemma wf_set_hashable (s : pyset) :
  wf_set s = true -> forall x, In x s -> hashable x = true.
Proof.
  induction s as [| y s IH]; simpl; intros H x Hin; [destruct Hin |].
  apply andb_prop in H. destruct H as [H H3]. apply andb_prop in H.
  destruct H as [H1 H2]. destruct Hin as [-> | Hin]; auto.
Qed.

Lemma wf_set_NoDup (s : pyset) : wf_set s = true -> NoDup s.
Proof.
  induction s as [| y s IH]; simpl; intros H; [constructor |].
  apply andb_prop in H. destruct H as [H H3]. apply andb_prop in H.
  destruct H as [H1 H2]. constructor; auto.
  intros Hin. apply (set_mem_In y s H1) in Hin.
  rewrite Hin in H2. discriminate.
Qed.

Lemma wf_set_snoc (s : pyset) (v : json) :
  wf_set s = true -> hashable v = true -> set_mem v s = false ->
  wf_set (s ++ [v]) = true.
Proof.
  induction s as [| y s IH]; simpl; intros H Hv Hm.
  - now rewrite Hv.
  - apply andb_prop in H. destruct H as [H H3]. apply andb_prop in H.
    destruct H as [H1 H2]. apply orb_false_elim in Hm. destruct Hm as [K Hm].
    rewrite H1, set_mem_app, (IH H3 Hv Hm). simpl.
    rewrite key_eqb_sym, K. rewrite negb_true_iff in H2. now rewrite H2.
Qed.

Lemma wf_set_filter (p : json -> bool) (s : pyset) :
  wf_set s = true -> wf_set (filter p s) = true.
Proof.
  induction s as [| y s IH]; simpl; intros H; auto.
  apply andb_prop in H. destruct H as [H H3]. apply andb_prop in H.
  destruct H as [H1 H2]. destruct (p y); simpl; auto.
  rewrite H1, (IH H3), andb_true_r. simpl.
  rewrite negb_true_iff in H2 |- *.
  destruct (set_mem y (filter p s)) eqn:E; auto.
  apply existsb_exists in E. destruct E as [z [Hz K]].
  apply filter_In in Hz. destruct Hz as [Hz _].
  assert (set_mem y s = true) by (apply existsb_exists; eauto).
  congruence.
Qed.

(** What one [add] does to a set. *)
Lemma set_add_spec (v : json) (s s' : pyset) :
  set_add v s = Ok s' ->
  hashable v = true /\
  set_mem v s' = true /\
  (forall x, set_mem x s = true -> set_mem x s' = true) /\
  (forall x, In x s' -> In x s \/ x = v) /\
  (forall x, In x s -> In x s') /\
  (wf_set s = true -> wf_set s' = true).
Proof.
  unfold set_add. destruct (hashable v) eqn:Hv; [| discriminate].
  destruct (set_mem v s) eqn:Hm; intros H; inversion H; subst; clear H.
  - repeat split; auto.
  - repeat split; auto.
    + rewrite set_mem_app. simpl. rewrite key_eqb_refl by auto.
      now rewrite orb_true_r.
    + intros x Hx. rewrite set_mem_app, Hx. reflexivity.
    + intros x Hx. apply in_app_or in Hx. destruct Hx as [Hx | [Hx | []]]; auto.
    + intros x Hx. apply in_or_app. auto.
    + intros Hwf. now apply wf_set_snoc.
Qed.

Lemma set_add_unhashable (v : json) (s : pyset) :
  hashable v = false -> set_add v s = Raise TypeError.
Proof. unfold set_add. now intros ->. Qed.

Lemma set_add_hashable (v : json) (s : pyset) :
  hashable v = true -> exists s', set_add v s = Ok s'.
Proof. unfold set_add. intros ->. eauto. Qed.

(** ** The loops of the extractors *)

Lemma extract_followers_unfold (data : json) :
  extract_followers data =
  (entries <- py_iter data ;; for_each entries entry_step []).
Proof. reflexivity. Qed.

Lemma extract_following_unfold (data : json) :
  extract_following data =
  (present <- py_contains "relationships_following" data ;;
   if (present : bool) then
     relationships_following <- py_getitem data "relationships_following" ;;
     entries <- py_iter relationships_following ;;
     for_each entries (field_step "title") []
   else Ok []).
Proof. reflexivity. Qed.

(** One iteration either adds the field of a dict, or skips the item, or
    stops on a [TypeError]. *)
Lemma field_step_cases (key : string) (item : json) (s : pyset) :
  (exists f v, item = JObj f /\ dict_get key f = Some v /\
               field_step key item s = set_add v s) \/
  ((forall f, item = JObj f -> dict_get key f = None) /\
   field_step key item s = Ok s) \/
  ((forall f, item <> JObj f) /\ field_step key item s = Raise TypeError).
Proof.
  unfold field_step.
  destruct item as [| b | z | f | str | items | fields]; simpl;
    try (right; right; split; [intros; discriminate | reflexivity]).
  - destruct (substring_of key str); simpl.
    + right; right; split; [intros; discriminate | reflexivity].
    + right; left; split; [intros; discriminate | reflexivity].
  - destruct (existsb (is_str key) items); simpl.
    + right; right; split; [intros; discriminate | reflexivity].
    + right; left; split; [intros; discriminate | reflexivity].
  - destruct (dict_get key fields) as [v |] eqn:E; simpl.
    + left. exists fields, v. auto.
    + right; left; split; auto. intros f H. inversion H; subst. exact E.
Qed.

Lemma field_step_raises (key : string) (item : json) (s : pyset) (e : exn) :
  field_step key item s = Raise e -> e = TypeError.
Proof.
  destruct (field_step_cases key item s)
    as [[f [v [_ [_ E]]]] | [[_ E] | [_ E]]]; rewrite E.
  - unfold set_add. destruct (hashable v); [discriminate | congruence].
  - discriminate.
  - congruence.
Qed.

Lemma field_step_shape (ok : json -> bool) (key : string) (item : json) (s : pyset) :
  (forall v, ok v = true -> hashable v = true) ->
  (match item with
   | JObj fields => match dict_get key fields with Some v => ok v | None => true end
   | _ => false
   end) = true ->
  exists s', field_step key item s = Ok s'.
Proof.
  intros Hok H. destruct item; try discriminate.
  unfold field_step. simpl. destruct (dict_get key fields) as [v |]; simpl; eauto.
  apply set_add_hashable. auto.
Qed.

Lemma grows_refl (s : pyset) : grows s s.
Proof. split; auto. Qed.

Lemma grows_trans (s t u : pyset) : grows s t -> grows t u -> grows s u.
Proof. intros [a b c] [a' b' c']. split; auto. Qed.

Lemma field_step_grows (key : string) (item : json) (s s' : pyset) :
  field_step key item s = Ok s' -> grows s s'.
Proof.
  destruct (field_step_cases key item s)
    as [[f [v [_ [_ E]]]] | [[_ E] | [_ E]]]; rewrite E; intros H.
  - apply set_add_spec in H. destruct H as (_ & _ & a & _ & b & c). split; auto.
  - inversion H; subst. apply grows_refl.
  - discriminate.
Qed.

Lemma for_each_grows {A : Type} (xs : list A) (body : A -> pyset -> result pyset) :
  (forall x s s', body x s = Ok s' -> grows s s') ->
  forall s s', for_each xs body s = Ok s' -> grows s s'.
Proof.
  intros Hb s s' H.
  apply (for_each_preserves (grows s) xs body) with (s := s); auto using grows_refl.
  intros x t t' _ E G. eapply grows_trans; eauto.
Qed.

Section Collect.

Variable key : string.

Lemma collect_grows (items : list json) (s s' : pyset) :
  for_each items (field_step key) s = Ok s' -> grows s s'.
Proof. apply for_each_grows. apply field_step_grows. Qed.

Lemma collect_origin (items : list json) (s s' : pyset) (y : json) :
  for_each items (field_step key) s = Ok s' -> In y s' ->
  In y s \/ exists item, In item items /\ from_item key item y.
Proof.
  apply (for_each_origin (from_item key)). clear.
  intros item s s' y H Hy.
  destruct (field_step_cases key item s)
    as [[f [v [E1 [E2 E]]]] | [[_ E] | [_ E]]]; rewrite E in H.
  - apply set_add_spec in H. destruct H as (_ & _ & _ & a & _).
    destruct (a y Hy) as [K | ->]; auto. right. exists f. auto.
  - inversion H; subst. auto.
  - discriminate.
Qed.

Lemma collect_member (items : list json) (s s' : pyset) (item v : json) :
  In item items -> from_item key item v ->
  for_each items (field_step key) s = Ok s' -> set_mem v s' = true.
Proof.
  intros Hin [f [-> Hv]].
  apply (for_each_establishes (fun t => set_mem v t = true) items _ (JObj f) Hin).
  - intros t t' H. unfold field_step in H. simpl in H. rewrite Hv in H.
    simpl in H. now apply set_add_spec in H.
  - intros y t t' H. apply field_step_grows in H. apply H.
Qed.

Lemma collect_raises (items : list json) (s : pyset) (e : exn) :
  for_each items (field_step key) s = Raise e -> e = TypeError.
Proof.
  apply (for_each_raises_only (fun e => e = TypeError)).
  intros x t e'. apply field_step_raises.
Qed.

Lemma collect_unhashable (items : list json) (s : pyset) (item v : json) :
  In item items -> from_item key item v -> hashable v = false ->
  for_each items (field_step key) s = Raise TypeError.
Proof.
  intros Hin [f [-> Hv]] Hh.
  assert (R : returns (for_each items (field_step key) s) = false).
  { apply (for_each_reaches_raise items _ (JObj f) Hin).
    intros t. unfold field_step. simpl. rewrite Hv. simpl.
    now rewrite set_add_unhashable. }
  destruct (for_each items (field_step key) s) as [t | e] eqn:E;
    [discriminate |].
  f_equal. eapply collect_raises; eauto.
Qed.

Lemma collect_returns (ok : json -> bool) (items : list json) (s : pyset) :
  (forall v, ok v = true -> hashable v = true) ->
  forallb (fun item =>
    match item with
    | JObj fields => match dict_get key fields with Some v => ok v | None => true end
    | _ => false
    end) items = true ->
  exists s', for_each items (field_step key) s = Ok s'.
Proof.
  intros Hok H. apply for_each_returns. intros x t Hx.
  rewrite forallb_forall in H.
  apply (field_step_shape ok); [exact Hok | exact (H x Hx)].
Qed.

End Collect.

(** Iterating over the keys of a dict or the characters of a string yields
    strings only. *)
Lemma keys_are_strings (m : list (string * json)) (item : json) :
  In item (map (fun kv => JStr (fst kv)) m) -> is_string item = true.
Proof.
  intros H. apply in_map_iff in H. destruct H as [kv [<- _]]. reflexivity.
Qed.

Lemma chars_are_strings (str : string) (item : json) :
  In item (chars_of str) -> is_string item = true.
Proof.
  unfold chars_of. intros H. apply in_map_iff in H.
  destruct H as [c [<- _]]. reflexivity.
Qed.

Lemma py_iter_dicts (v : json) (xs : list json) (f : list (string * json)) :
  py_iter v = Ok xs -> In (JObj f) xs -> v = JArr xs.
Proof.
  destruct v; simpl; intros H Hin; inversion H; subst; auto.
  - apply chars_are_strings in Hin. discriminate.
  - apply keys_are_strings in Hin. discriminate.
Qed.

Lemma from_item_dict (key : string) (item v : json) :
  from_item key item v -> exists f, item = JObj f.
Proof. intros [f [H _]]. eauto. Qed.

(** ** One record of the followers file *)

(** Either the record is skipped, or its [string_list_data] is traversed,
    or the iteration stops on a [TypeError]. *)
Lemma entry_step_cases (entry : json) (s : pyset) :
  entry_step entry s = Ok s \/
  entry_step entry s = Raise TypeError \/
  exists fields sld items,
    entry = JObj fields /\ dict_get "string_list_data" fields = Some sld /\
    py_iter sld = Ok items /\
    entry_step entry s = for_each items (field_step "value") s.
Proof.
  unfold entry_step.
  destruct entry as [| b | z | f | str | items | fields]; simpl; auto.
  - destruct (substring_of _ str); simpl; auto.
  - destruct (existsb _ items); simpl; auto.
  - destruct (dict_get "string_list_data" fields) as [sld |] eqn:E; simpl; auto.
    destruct (py_iter sld) as [items | e] eqn:I; simpl.
    + right; right. exists fields, sld, items. auto.
    + right; left. destruct sld; simpl in I; congruence.
Qed.

Lemma entry_step_grows (entry : json) (s s' : pyset) :
  entry_step entry s = Ok s' -> grows s s'.
Proof.
  destruct (entry_step_cases entry s)
    as [E | [E | (fields & sld & items & _ & _ & _ & E)]]; rewrite E; intros H.
  - inversion H; subst. apply grows_refl.
  - discriminate.
  - eapply collect_grows; eauto.
Qed.

Lemma entry_step_origin (entry : json) (s s' : pyset) (y : json) :
  entry_step entry s = Ok s' -> In y s' -> In y s \/ from_entry entry y.
Proof.
  destruct (entry_step_cases entry s)
    as [E | [E | (fields & sld & items & E1 & E2 & E3 & E)]]; rewrite E; intros H Hy.
  - inversion H; subst. auto.
  - discriminate.
  - destruct (collect_origin "value" items s s' y H Hy)
      as [K | [item [K1 [f [-> K2]]]]]; auto.
    right. exists fields, items, f.
    pose proof (py_iter_dicts sld items f E3 K1) as K. subst sld. auto.
Qed.

Lemma entry_step_of_entry (entry v : json) (s : pyset) :
  from_entry entry v ->
  exists items item,
    In item items /\ from_item "value" item v /\
    entry_step entry s = for_each items (field_step "value") s.
Proof.
  intros (fields & items & f & -> & E & Hin & Hv).
  exists items, (JObj f). repeat split; auto.
  - exists f. auto.
  - unfold entry_step. simpl. rewrite E. reflexivity.
Qed.

Lemma entry_step_member (entry v : json) (s s' : pyset) :
  from_entry entry v -> entry_step entry s = Ok s' -> set_mem v s' = true.
Proof.
  intros Hv. destruct (entry_step_of_entry entry v s Hv) as (items & item & a & b & E).
  rewrite E. eapply collect_member; eauto.
Qed.

Lemma entry_step_raises (entry : json) (s : pyset) (e : exn) :
  entry_step entry s = Raise e -> e = TypeError.
Proof.
  destruct (entry_step_cases entry s)
    as [E | [E | (fields & sld & items & _ & _ & _ & E)]]; rewrite E.
  - discriminate.
  - congruence.
  - apply collect_raises.
Qed.

Lemma entry_step_unhashable (entry v : json) (s : pyset) :
  from_entry entry v -> hashable v = false ->
  entry_step entry s = Raise TypeError.
Proof.
  intros Hv Hh. destruct (entry_step_of_entry entry v s Hv) as (items & item & a & b & E).
  rewrite E. eapply collect_unhashable; eauto.
Qed.

Lemma entry_step_returns (ok : json -> bool) (entry : json) (s : pyset) :
  (forall v, ok v = true -> hashable v = true) ->
  follower_entry_shape ok entry = true ->
  exists s', entry_step entry s = Ok s'.
Proof.
  intros Hok H. destruct entry; try discriminate.
  unfold entry_step. simpl in *.
  destruct (dict_get "string_list_data" fields) as [sld |]; simpl; eauto.
  destruct sld; try discriminate. simpl.
  apply (collect_returns "value" ok); auto.
Qed.

(** ** The extractors on arbitrary parsed JSON *)

Lemma follower_value_entry (data v : json) :
  follower_value data v <->
  exists entries entry, data = JArr entries /\ In entry entries /\ from_entry entry v.
Proof.
  split.
  - intros (entries & fields & items & f & -> & a & b & c & d).
    exists entries, (JObj fields). repeat split; auto.
    exists fields, items, f. auto.
  - intros (entries & entry & -> & a & (fields & items & f & -> & b & c & d)).
    exists entries, fields, items, f. auto.
Qed.

Lemma from_entry_dict (entry v : json) :
  from_entry entry v -> exists fields, entry = JObj fields.
Proof. intros (fields & _ & _ & -> & _). eauto. Qed.

(** Whenever [extract_followers] returns, it returns a set whose elements
    are [value] fields of the input, taken as they are, and every [value]
    field is a member. *)
Lemma extract_followers_sound (data : json) (s : pyset) :
  extract_followers data = Ok s ->
  wf_set s = true /\
  (forall y, In y s -> follower_value data y) /\
  (forall v, follower_value data v -> set_mem v s = true).
Proof.
  rewrite extract_followers_unfold.
  destruct (py_iter data) as [entries | e] eqn:I; simpl; [| discriminate].
  intros H. split; [| split].
  - apply (for_each_grows entries entry_step entry_step_grows) in H.
    now apply H.
  - intros y Hy.
    destruct (for_each_origin from_entry entries entry_step
                entry_step_origin [] s y H Hy) as [[] | [entry [K1 K2]]].
    apply follower_value_entry. exists entries, entry.
    destruct (from_entry_dict entry y K2) as [fields ->].
    apply (py_iter_dicts data entries fields I) in K1 as K. auto.
  - intros v Hv. apply follower_value_entry in Hv.
    destruct Hv as (entries' & entry & -> & Hin & Hfrom).
    simpl in I. inversion I; subst.
    apply (for_each_establishes (fun t => set_mem v t = true)
             entries entry_step entry Hin) with (s := []); auto.
    + intros t t'. now apply entry_step_member.
    + intros y t t' E. apply entry_step_grows in E. apply E.
Qed.

Lemma extract_followers_raises (data : json) (e : exn) :
  extract_followers data = Raise e -> e = TypeError.
Proof.
  rewrite extract_followers_unfold.
  destruct (py_iter data) as [entries | e'] eqn:I; simpl.
  - apply (for_each_raises_only (fun e => e = TypeError)).
    intros x t e'. apply entry_step_raises.
  - destruct data; simpl in I; congruence.
Qed.

Lemma extract_followers_unhashable (data v : json) :
  follower_value data v -> hashable v = false ->
  extract_followers data = Raise TypeError.
Proof.
  intros Hv Hh. apply follower_value_entry in Hv.
  destruct Hv as (entries & entry & -> & Hin & Hfrom).
  assert (R : returns (extract_followers (JArr entries)) = false).
  { rewrite extract_followers_unfold. simpl.
    apply (for_each_reaches_raise entries entry_step entry Hin).
    intros t. now rewrite (entry_step_unhashable entry v t). }
  destruct (extract_followers (JArr entries)) as [t | e] eqn:E; [discriminate |].
  f_equal. eapply extract_followers_raises; eauto.
Qed.

Lemma extract_followers_returns (ok : json -> bool) (data : json) :
  (forall v, ok v = true -> hashable v = true) ->
  followers_shape ok data = true ->
  exists s, extract_followers data = Ok s.
Proof.
  intros Hok H. destruct data; try discriminate.
  rewrite extract_followers_unfold. simpl in *.
  apply for_each_returns. intros x t Hx.
  rewrite forallb_forall in H.
  apply (entry_step_returns ok); [exact Hok | exact (H x Hx)].
Qed.

Lemma following_title_entry (data v : json) :
  following_title data v <->
  exists fields entries entry,
    data = JObj fields /\
    dict_get "relationships_following" fields = Some (JArr entries) /\
    In entry entries /\ from_item "title" entry v.
Proof.
  split.
  - intros (fields & entries & f & -> & a & b & c).
    exists fields, entries, (JObj f). repeat split; auto. exists f. auto.
  - intros (fields & entries & entry & -> & a & b & (f & -> & c)).
    exists fields, entries, f. auto.
Qed.

(** The same four facts for [extract_following]. *)
Lemma extract_following_cases (data : json) :
  extract_following data = Ok [] \/
  extract_following data = Raise TypeError \/
  exists fields rf entries,
    data = JObj fields /\ dict_get "relationships_following" fields = Some rf /\
    py_iter rf = Ok entries /\
    extract_following data = for_each entries (field_step "title") [].
Proof.
  rewrite extract_following_unfold.
  destruct data as [| b | z | f | str | items | fields]; simpl; auto.
  - destruct (substring_of _ str); simpl; auto.
  - destruct (existsb _ items); simpl; auto.
  - destruct (dict_get "relationships_following" fields) as [rf |] eqn:E; simpl; auto.
    destruct (py_iter rf) as [entries | e] eqn:I; simpl.
    + right; right. exists fields, rf, entries. auto.
    + right; left. destruct rf; simpl in I; congruence.
Qed.

Lemma extract_following_of_title (data v : json) :
  following_title data v ->
  exists entries entry,
    In entry entries /\ from_item "title" entry v /\
    extract_following data = for_each entries (field_step "title") [].
Proof.
  intros Hv. apply following_title_entry in Hv.
  destruct Hv as (fields & entries & entry & -> & E & Hin & Hfrom).
  exists entries, entry. repeat split; auto.
  rewrite extract_following_unfold. simpl. rewrite E. reflexivity.
Qed.

Lemma extract_following_sound (data : json) (s : pyset) :
  extract_following data = Ok s ->
  wf_set s = true /\
  (forall y, In y s -> following_title data y) /\
  (forall v, following_title data v -> set_mem v s = true).
Proof.
  intros H. split; [| split].
  - destruct (extract_following_cases data)
      as [E | [E | (fields & rf & entries & _ & _ & _ & E)]]; rewrite E in H.
    + now inversion H.
    + discriminate.
    + apply collect_grows in H. now apply H.
  - intros y Hy.
    destruct (extract_following_cases data)
      as [E | [E | (fields & rf & entries & -> & E2 & E3 & E)]]; rewrite E in H.
    + inversion H; subst. destruct Hy.
    + discriminate.
    + destruct (collect_origin "title" entries [] s y H Hy)
        as [[] | [entry [K1 K2]]].
      apply following_title_entry. exists fields, entries, entry.
      destruct (from_item_dict _ _ _ K2) as [f ->].
      pose proof (py_iter_dicts rf entries f E3 K1) as K. subst rf. auto.
  - intros v Hv.
    destruct (extract_following_of_title data v Hv) as (entries & entry & a & b & E).
    rewrite E in H. eapply collect_member; eauto.
Qed.

Lemma extract_following_raises (data : json) (e : exn) :
  extract_following data = Raise e -> e = TypeError.
Proof.
  destruct (extract_following_cases data)
    as [E | [E | (fields & rf & entries & _ & _ & _ & E)]]; rewrite E.
  - discriminate.
  - congruence.
  - apply collect_raises.
Qed.

Lemma extract_following_unhashable (data v : json) :
  following_title data v -> hashable v = false ->
  extract_following data = Raise TypeError.
Proof.
  intros Hv Hh.
  destruct (extract_following_of_title data v Hv) as (entries & entry & a & b & E).
  rewrite E. eapply collect_unhashable; eauto.
Qed.

Lemma extract_following_returns (ok : json -> bool) (data : json) :
  (forall v, ok v = true -> hashable v = true) ->
  following_shape ok data = true ->
  exists s, extract_following data = Ok s.
Proof.
  intros Hok H. destruct data; try discriminate.
  rewrite extract_following_unfold. simpl in *.
  destruct (dict_get "relationships_following" fields) as [rf |]; simpl; eauto.
  destruct rf; try discriminate. simpl.
  apply (collect_returns "title" ok); auto.
Qed.

(** ** The differ *)

Lemma find_non_followers_In (following followers : pyset) (x : json) :
  In x (find_non_followers following followers) <->
  In x following /\ set_mem x followers = false.
Proof.
  unfold find_non_followers, set_diff. rewrite filter_In, negb_true_iff.
  reflexivity.
Qed.

(** C1: [find_non_followers following followers] is the set difference
    [following \ followers]: its elements are the elements of [following]
    that are not members of [followers] (for identifiers: that do not occur
    in [followers]); it is a set again; it is a function of the two sets
    alone, so two runs on the same sets give the same set, and listing the
    two sets in another order gives the same elements; subtracting
    [followers] once more changes nothing. *)
Theorem find_non_followers_is_difference (following followers : pyset) :
  (forall x, In x (find_non_followers following followers) <->
             In x following /\ set_mem x followers = false) /\
  (forall id, In (JStr id) (find_non_followers following followers) <->
              In (JStr id) following /\ ~ In (JStr id) followers) /\
  (wf_set following = true ->
   wf_set (find_non_followers following followers) = true) /\
  (forall r1 r2, r1 = find_non_followers following followers ->
                 r2 = find_non_followers following followers -> r1 = r2) /\
  (forall following' followers',
     (forall x, In x following <-> In x following') ->
     (forall x, set_mem x followers = set_mem x followers') ->
     forall x, In x (find_non_followers following followers) <->
               In x (find_non_followers following' followers')) /\
  find_non_followers (find_non_followers following followers) followers =
  find_non_followers following followers.
Proof.
  split; [| split; [| split; [| split; [| split]]]].
  - apply find_non_followers_In.
  - intros id. rewrite find_non_followers_In, <- (set_mem_str id followers).
    destruct (set_mem (JStr id) followers); intuition congruence.
  - apply wf_set_filter.
  - intros r1 r2 -> ->. reflexivity.
  - intros following' followers' HA HB x.
    rewrite !find_non_followers_In, HA, HB. reflexivity.
  - unfold find_non_followers, set_diff.
    induction following as [| y l IH]; simpl; auto.
    destruct (negb (set_mem y followers)) eqn:E; simpl; auto.
    rewrite E, IH. reflexivity.
Qed.

(** C8: [find_non_followers a b] is empty if and only if [a] is a subset
    of [b], that is, every element of [a] is a member of [b]. *)
Theorem find_non_followers_empty_iff_subset (a b : pyset) :
  find_non_followers a b = [] <-> (forall x, In x a -> set_mem x b = true).
Proof.
  split.
  - intros H x Hx. destruct (set_mem x b) eqn:E; auto.
    assert (K : In x (find_non_followers a b))
      by (apply find_non_followers_In; auto).
    rewrite H in K. destruct K.
  - intros H. destruct (find_non_followers a b) as [| y l] eqn:E; auto.
    assert (K : In y (find_non_followers a b)) by (rewrite E; simpl; auto).
    apply find_non_followers_In in K. destruct K as [K1 K2].
    rewrite (H y K1) in K2. discriminate.
Qed.

(** ** The extractors on the documented formats *)

Lemma is_string_hashable (v : json) : is_string v = true -> hashable v = true.
Proof. destruct v; simpl; auto; discriminate. Qed.

Lemma is_string_inv (v : json) : is_string v = true <-> exists str, v = JStr str.
Proof.
  split.
  - destruct v; try discriminate. eauto.
  - intros [str ->]. reflexivity.
Qed.

Lemma valid_followers_values (data v : json) :
  valid_followers data = true -> follower_value data v -> is_string v = true.
Proof.
  intros H (entries & fields & items & f & -> & a & b & c & d).
  simpl in H. rewrite forallb_forall in H. specialize (H _ a).
  simpl in H. rewrite b in H. rewrite forallb_forall in H. specialize (H _ c).
  simpl in H. rewrite d in H. exact H.
Qed.

Lemma valid_following_titles (data v : json) :
  valid_following data = true -> following_title data v -> is_string v = true.
Proof.
  intros H (fields & entries & f & -> & a & b & c).
  simpl in H. rewrite a in H. rewrite forallb_forall in H. specialize (H _ b).
  simpl in H. rewrite c in H. exact H.
Qed.

(** C2: on a followers file of the documented format, a list of records
    each of which may have a [string_list_data] list of entries each of
    which may have a string [value], [extract_followers] returns without an
    error a duplicate-free set whose elements are exactly the strings that
    are the [value] of some entry; records without [string_list_data] and
    entries without [value] contribute nothing and raise nothing. *)
Theorem extract_followers_valid (data : json) :
  valid_followers data = true ->
  exists usernames,
    extract_followers data = Ok usernames /\
    NoDup usernames /\
    wf_set usernames = true /\
    forall x, In x usernames <->
              (exists id, x = JStr id) /\ follower_value data x.
Proof.
  intros Hv.
  destruct (extract_followers_returns is_string data is_string_hashable Hv)
    as [s E].
  destruct (extract_followers_sound data s E) as (Hwf & Hin & Hmem).
  exists s. split; [exact E |]. split; [now apply wf_set_NoDup |].
  split; [exact Hwf |]. intros x. split.
  - intros Hx. split; auto.
    apply is_string_inv. eapply valid_followers_values; eauto.
  - intros [[id ->] Hx]. apply set_mem_str. auto.
Qed.

(** C3: on a following file of the documented format, a JSON object whose
    [relationships_following], when present, is a list of records each of
    which may have a string [title], [extract_following] returns exactly
    the set of these titles; records without [title] are skipped, and when
    the key is absent the result is the empty set, not an error. *)
Theorem extract_following_valid (data : json) :
  valid_following data = true ->
  exists usernames,
    extract_following data = Ok usernames /\
    NoDup usernames /\
    wf_set usernames = true /\
    (forall x, In x usernames <->
               (exists id, x = JStr id) /\ following_title data x) /\
    (py_contains "relationships_following" data = Ok false -> usernames = []).
Proof.
  intros Hv.
  destruct (extract_following_returns is_string data is_string_hashable Hv)
    as [s E].
  destruct (extract_following_sound data s E) as (Hwf & Hin & Hmem).
  exists s. split; [exact E |]. split; [now apply wf_set_NoDup |].
  split; [exact Hwf |]. split.
  - intros x. split.
    + intros Hx. split; auto.
      apply is_string_inv. eapply valid_following_titles; eauto.
    + intros [[id ->] Hx]. apply set_mem_str. auto.
  - intros Habs. rewrite extract_following_unfold, Habs in E. simpl in E.
    congruence.
Qed.

(** C10, as amended: the extractors do not check the type of what they
    extract.  A [value] or [title] field holding [None], a boolean or a
    number is taken as it is: whenever the extractor returns, which it does
    on every input of the documented shape, the field is a member of the
    returned set, represented there by a non-string field of the input.  A
    field holding a list or a dict makes the extractor raise [TypeError]. *)
Theorem extractors_do_not_validate (data v : json) :
  is_string v = false ->
  (follower_value data v ->
   if hashable v then
     forall s, extract_followers data = Ok s ->
       exists x, In x s /\ key_eqb v x = true /\ is_string x = false /\
                 follower_value data x
   else extract_followers data = Raise TypeError) /\
  (following_title data v ->
   if hashable v then
     forall s, extract_following data = Ok s ->
       exists x, In x s /\ key_eqb v x = true /\ is_string x = false /\
                 following_title data x
   else extract_following data = Raise TypeError) /\
  (followers_shape hashable data = true -> exists s, extract_followers data = Ok s) /\
  (following_shape hashable data = true -> exists s, extract_following data = Ok s).
Proof.
  intros Hs. split; [| split; [| split]].
  - intros Hv. destruct (hashable v) eqn:Hh.
    + intros s E. destruct (extract_followers_sound data s E) as (_ & Hin & Hmem).
      specialize (Hmem v Hv). apply existsb_exists in Hmem.
      destruct Hmem as [x [Hx K]]. exists x. repeat split; auto.
      rewrite <- (key_eqb_is_string v x K). exact Hs.
    + now apply extract_followers_unhashable with (v := v).
  - intros Hv. destruct (hashable v) eqn:Hh.
    + intros s E. destruct (extract_following_sound data s E) as (_ & Hin & Hmem).
      specialize (Hmem v Hv). apply existsb_exists in Hmem.
      destruct Hmem as [x [Hx K]]. exists x. repeat split; auto.
      rewrite <- (key_eqb_is_string v x K). exact Hs.
    + now apply extract_following_unhashable with (v := v).
  - apply extract_followers_returns. auto.
  - apply extract_following_returns. auto.
Qed.

(** ** Sorting strings *)

Lemma str_lt_trans (a b c : string) : str_lt a b -> str_lt b c -> str_lt a c.
Proof.
  unfold str_lt, String.ltb. intros H1 H2.
  destruct (String.compare a b) eqn:E1; try discriminate.
  destruct (String.compare b c) eqn:E2; try discriminate.
  apply String_as_OT.cmp_lt in E1, E2.
  pose proof (String_as_OT.lt_trans _ _ _ E1 E2) as E3.
  apply String_as_OT.cmp_lt in E3. unfold String_as_OT.cmp in E3.
  now rewrite E3.
Qed.

Lemma str_lt_irrefl (a : string) : ~ str_lt a a.
Proof.
  unfold str_lt, String.ltb. intros H.
  destruct (String.compare a a) eqn:E; try discriminate.
  apply String_as_OT.cmp_lt in E. apply String_as_OT.lt_not_eq in E.
  apply E. reflexivity.
Qed.

Lemma str_le_cases (a b : string) : str_le a b <-> str_lt a b \/ a = b.
Proof.
  unfold str_le, str_lt, String.ltb. rewrite (String.compare_antisym b a).
  destruct (String.compare a b) eqn:E; simpl.
  - apply String.compare_eq_iff in E. intuition.
  - intuition.
  - split; [discriminate |]. intros [H | ->]; [discriminate |].
    pose proof (String.compare_antisym b b) as K. rewrite E in K.
    discriminate.
Qed.

Lemma str_le_trans (a b c : string) : str_le a b -> str_le b c -> str_le a c.
Proof.
  rewrite !str_le_cases. intros [H1 | ->] [H2 | ->]; auto.
  left. eapply str_lt_trans; eauto.
Qed.

Lemma insort_str_perm (x : string) (l : list string) :
  Permutation (insort_str x l) (x :: l).
Proof.
  induction l as [| y l IH]; simpl; auto.
  destruct (String.ltb x y); auto.
  rewrite IH. apply perm_swap.
Qed.

Lemma insort_str_sorted (x : string) (l : list string) :
  StronglySorted str_le l -> StronglySorted str_le (insort_str x l).
Proof.
  induction l as [| y l IH]; simpl; intros H.
  - repeat constructor.
  - inversion H as [| ? ? Hs Hf]; subst.
    destruct (String.ltb x y) eqn:E.
    + constructor; auto. constructor.
      * apply str_le_cases. now left.
      * eapply Forall_impl; [| exact Hf]. intros z Hz.
        apply str_le_trans with y; auto. apply str_le_cases. now left.
    + constructor; auto.
      apply (Permutation_Forall (Permutation_sym (insort_str_perm x l))).
      constructor; auto.
Qed.

Lemma fold_insort_perm (ids acc : list string) :
  Permutation (fold_left (fun acc x => insort_str x acc) ids acc) (ids ++ acc).
Proof.
  revert acc. induction ids as [| x ids IH]; intros acc; simpl; auto.
  rewrite IH. rewrite insort_str_perm. symmetry. apply Permutation_middle.
Qed.

Lemma fold_insort_sorted (ids acc : list string) :
  StronglySorted str_le acc ->
  StronglySorted str_le (fold_left (fun acc x => insort_str x acc) ids acc).
Proof.
  revert acc. induction ids as [| x ids IH]; intros acc H; simpl; auto.
  apply IH. now apply insort_str_sorted.
Qed.

Lemma sorted_str_perm (ids : list string) : Permutation (sorted_str ids) ids.
Proof.
  unfold sorted_str. rewrite fold_insort_perm. now rewrite app_nil_r.
Qed.

Lemma sorted_str_sorted (ids : list string) : StronglySorted str_le (sorted_str ids).
Proof. apply fold_insort_sorted. constructor. Qed.

Lemma strict_of_NoDup (l : list string) :
  NoDup l -> StronglySorted str_le l -> StronglySorted str_lt l.
Proof.
  induction l as [| x l IH]; intros Hn Hs; [constructor |].
  inversion Hn; subst. inversion Hs as [| ? ? Hs' Hf]; subst.
  constructor; auto.
  rewrite Forall_forall in Hf |- *. intros y Hy.
  destruct (proj1 (str_le_cases x y) (Hf y Hy)) as [K | ->]; auto.
  contradiction.
Qed.

Lemma sorted_str_strict (ids : list string) :
  NoDup ids -> StronglySorted str_lt (sorted_str ids).
Proof.
  intros H. apply strict_of_NoDup; [| apply sorted_str_sorted].
  apply (Permutation_NoDup (Permutation_sym (sorted_str_perm ids)) H).
Qed.

(** A set has one sorted arrangement. *)
Lemma strictly_sorted_unique (l1 l2 : list string) :
  StronglySorted str_lt l1 -> StronglySorted str_lt l2 ->
  (forall x, In x l1 <-> In x l2) -> l1 = l2.
Proof.
  revert l2. induction l1 as [| x l1 IH]; intros l2 H1 H2 Hs.
  - destruct l2 as [| y l2]; auto. destruct (proj2 (Hs y)). now left.
  - destruct l2 as [| y l2]; [destruct (proj1 (Hs x)); now left |].
    inversion H1 as [| ? ? S1 F1]; subst. inversion H2 as [| ? ? S2 F2]; subst.
    rewrite Forall_forall in F1, F2.
    assert (x = y).
    { destruct (proj1 (Hs x) (or_introl eq_refl)) as [-> | Hx]; auto.
      destruct (proj2 (Hs y) (or_introl eq_refl)) as [-> | Hy]; auto.
      exfalso. apply (str_lt_irrefl x).
      apply str_lt_trans with y; auto. }
    subst y. f_equal. apply IH; auto.
    intros z. split; intros Hz.
    + destruct (proj1 (Hs z) (or_intror Hz)) as [-> | K]; auto.
      exfalso. apply (str_lt_irrefl z). auto.
    + destruct (proj2 (Hs z) (or_intror Hz)) as [-> | K]; auto.
      exfalso. apply (str_lt_irrefl z). auto.
Qed.

Lemma sorted_str_of_perm (ids ids' : list string) :
  NoDup ids -> Permutation ids' ids -> sorted_str ids' = sorted_str ids.
Proof.
  intros Hn Hp. apply strictly_sorted_unique.
  - apply sorted_str_strict. apply (Permutation_NoDup (Permutation_sym Hp) Hn).
  - now apply sorted_str_strict.
  - intros x. split; intros Hx.
    + apply (Permutation_in x (Permutation_sym (sorted_str_perm ids))).
      apply (Permutation_in x Hp).
      apply (Permutation_in x (sorted_str_perm ids') Hx).
    + apply (Permutation_in x (Permutation_sym (sorted_str_perm ids'))).
      apply (Permutation_in x (Permutation_sym Hp)).
      apply (Permutation_in x (sorted_str_perm ids) Hx).
Qed.

(** [sorted] on a set of strings is [sorted_str] on the strings. *)
Lemma insort_strings (x : string) (l : list string) :
  insort (JStr x) (map JStr l) = Ok (map JStr (insort_str x l)).
Proof.
  induction l as [| y l IH]; simpl; auto.
  destruct (String.ltb x y); simpl; auto.
  rewrite IH. reflexivity.
Qed.

Lemma py_sorted_strings (ids : list string) :
  py_sorted (map JStr ids) = Ok (map JStr (sorted_str ids)).
Proof.
  unfold py_sorted, sorted_str.
  change (@nil json) with (map JStr []). generalize (@nil string).
  induction ids as [| x ids IH]; intros acc; simpl; auto.
  rewrite insort_strings. simpl. apply IH.
Qed.

(** ** Lines of the report *)

Lemma append_assoc (a b c : string) :
  ((a ++ b) ++ c = a ++ (b ++ c))%string.
Proof. induction a as [| x a IH]; simpl; congruence. Qed.

Lemma append_nil_r (a : string) : (a ++ "" = a)%string.
Proof. induction a as [| x a IH]; simpl; congruence. Qed.

Lemma lines_of_line (id rest : string) :
  has_newline id = false ->
  lines_of (id ++ newline ++ rest) = id :: lines_of rest.
Proof.
  unfold newline. induction id as [| c id IH]; intros H; simpl in *.
  - reflexivity.
  - apply orb_false_elim in H. destruct H as [Hc Hid].
    rewrite Hc, (IH Hid). reflexivity.
Qed.

Lemma report_text_cons (id : string) (ids : list string) :
  report_text (id :: ids) = (id ++ newline ++ report_text ids)%string.
Proof. reflexivity. Qed.

Lemma lines_of_report (ids : list string) :
  forallb (fun id => negb (has_newline id)) ids = true ->
  lines_of (report_text ids) = ids.
Proof.
  induction ids as [| id ids IH]; intros H; auto.
  cbn [forallb] in H. apply andb_prop in H. destruct H as [H1 H2].
  apply negb_true_iff in H1.
  rewrite report_text_cons, (lines_of_line id _ H1), (IH H2). reflexivity.
Qed.

(** ** The reporter *)

Lemma only_changes_refl (p : string) (w : world) : only_changes p w w.
Proof. split; auto. Qed.

Lemma only_changes_trans (p : string) (w1 w2 w3 : world) :
  only_changes p w1 w2 -> only_changes p w2 w3 -> only_changes p w1 w3.
Proof.
  intros [a b] [c d]. split; [congruence |].
  intros q Hq. rewrite (d q Hq). auto.
Qed.

Lemma set_file_same (p : string) (n : node) (fs : filesystem) :
  set_file p n fs p = Some n.
Proof. unfold set_file. now rewrite String.eqb_refl. Qed.

Lemma set_file_other (p q : string) (n : node) (fs : filesystem) :
  q <> p -> set_file p n fs q = fs q.
Proof.
  unfold set_file. intros H. apply String.eqb_neq in H. now rewrite H.
Qed.

Lemma open_write_only_changes (p : string) (w : world) :
  only_changes p w (fst (open_write p w)).
Proof.
  unfold open_write. destruct (files w p) as [[text | | |] |]; simpl;
    try apply only_changes_refl;
    (split; [reflexivity | intros q Hq; now apply set_file_other]).
Qed.

Lemma file_write_only_changes (p s : string) (w : world) :
  only_changes p w (fst (file_write p s w)).
Proof.
  unfold file_write. destruct (files w p) as [[text | | |] |]; simpl;
    try apply only_changes_refl.
  destruct (encodable s); simpl; [| apply only_changes_refl].
  split; [reflexivity | intros q Hq; now apply set_file_other].
Qed.

Lemma encodable_line (s : string) : encodable (s ++ newline) = encodable s.
Proof.
  induction s as [| c s IH]; [reflexivity |].
  cbn [append encodable]. rewrite IH. f_equal.
  destruct s as [| d s]; [| reflexivity].
  cbn [append newline]. unfold surrogate_lead.
  destruct (nat_of_ascii c =? 237)%nat; reflexivity.
Qed.

Lemma open_write_creates (p : string) (w : world) :
  files w p <> Some Locked -> files w p <> Some Dangling ->
  open_write p w = (mkWorld (set_file p (File "") (files w)) (stdout w), Ok tt).
Proof.
  intros H1 H2. unfold open_write.
  destruct (files w p) as [[text | | |] |]; auto; congruence.
Qed.

Lemma forallb_perm {A : Type} (f : A -> bool) (l l' : list A) :
  Permutation l l' -> forallb f l' = true -> forallb f l = true.
Proof.
  intros Hp H. rewrite forallb_forall in *. intros x Hx.
  apply H. apply (Permutation_in x Hp Hx).
Qed.

Section Reporter.

Variable float_repr : spec_float -> string.

Lemma write_lines_only_changes (p : string) (users : list json) (w : world) :
  only_changes p w (fst (io_for_each users (write_line float_repr p) w)).
Proof.
  revert w. induction users as [| u users IH]; intros w; simpl.
  - apply only_changes_refl.
  - unfold io_bind. pose proof (file_write_only_changes p
      (py_str float_repr u ++ newline) w) as H.
    unfold write_line at 1.
    destruct (file_write p (py_str float_repr u ++ newline) w) as [w1 [[] | e]];
      simpl in *; auto.
    eapply only_changes_trans; eauto.
Qed.

(** Whatever the set holds, [write_to_file] touches the output path only. *)
Lemma write_to_file_only_changes (users : pyset) (p : string) (w : world) :
  only_changes p w (fst (write_to_file float_repr users p w)).
Proof.
  unfold write_to_file, io_bind, lift.
  destruct (py_sorted users) as [sorted_users | e]; simpl;
    [| apply only_changes_refl].
  pose proof (open_write_only_changes p w) as H.
  destruct (open_write p w) as [w1 [[] | e]]; simpl in *; auto.
  eapply only_changes_trans; eauto.
  apply write_lines_only_changes.
Qed.

Lemma write_lines_strings (p : string) (ids : list string) :
  forallb encodable ids = true ->
  forall (text : string) (w : world),
    files w p = Some (File text) ->
    exists w',
      io_for_each (map JStr ids) (write_line float_repr p) w = (w', Ok tt) /\
      files w' p = Some (File (text ++ report_text ids)).
Proof.
  induction ids as [| id ids IH]; intros Henc text w Hw.
  - exists w. simpl. now rewrite append_nil_r.
  - cbn [forallb] in Henc. apply andb_prop in Henc. destruct Henc as [Hid Henc].
    specialize (IH Henc).
    cbn [map io_for_each]. unfold io_bind, write_line at 1, file_write.
    rewrite Hw. cbn [py_str]. rewrite encodable_line, Hid.
    destruct (IH (text ++ (id ++ newline))%string
                (mkWorld (set_file p (File (text ++ (id ++ newline))) (files w))
                         (stdout w))) as [w' [E Hf]].
    { apply set_file_same. }
    exists w'. split; [exact E |].
    rewrite Hf, report_text_cons, !append_assoc. reflexivity.
Qed.

(** On a set of strings the file ends up holding the sorted names, one
    per line. *)
Lemma write_to_file_strings (ids : list string) (p : string) (w : world) :
  forallb encodable ids = true ->
  files w p <> Some Locked ->
  files w p <> Some Dangling ->
  exists w',
    write_to_file float_repr (map JStr ids) p w = (w', Ok tt) /\
    files w' p = Some (File (report_text (sorted_str ids))).
Proof.
  intros Henc Hw Hd. unfold write_to_file, io_bind, lift.
  rewrite py_sorted_strings, (open_write_creates p w Hw Hd).
  destruct (write_lines_strings p (sorted_str ids)
              (forallb_perm encodable _ _ (sorted_str_perm ids) Henc) ""
              (mkWorld (set_file p (File "") (files w)) (stdout w)))
    as [w' [E' Hf]].
  { apply set_file_same. }
  exists w'. split; [exact E' | exact Hf].
Qed.

End Reporter.

Section ReportClaims.

Variable float_repr : spec_float -> string.

(** C4, as amended: for every set of identifiers that all have a UTF-8
    encoding and every output path that can be opened for writing,
    [write_to_file] replaces whatever the file held by the identifiers in
    strictly increasing lexicographic order, each followed by a newline,
    without duplicates, and touches no other file; when no identifier
    contains a newline the lines of the file are exactly the sorted
    identifiers, and none of them is blank when moreover no identifier is
    the empty string; for the empty set the file is empty. *)
Theorem write_to_file_sorted_lines
    (ids : list string) (output_path : string) (w : world) :
  NoDup ids ->
  forallb encodable ids = true ->
  files w output_path <> Some Locked ->
  files w output_path <> Some Dangling ->
  exists w',
    write_to_file float_repr (map JStr ids) output_path w = (w', Ok tt) /\
    files w' output_path = Some (File (report_text (sorted_str ids))) /\
    only_changes output_path w w' /\
    Permutation (sorted_str ids) ids /\
    StronglySorted str_lt (sorted_str ids) /\
    StronglySorted str_le (sorted_str ids) /\
    NoDup (sorted_str ids) /\
    (forallb (fun id => negb (has_newline id)) ids = true ->
     lines_of (report_text (sorted_str ids)) = sorted_str ids /\
     NoDup (lines_of (report_text (sorted_str ids))) /\
     (~ In EmptyString ids ->
      ~ In EmptyString (lines_of (report_text (sorted_str ids))))) /\
    (ids = [] -> report_text (sorted_str ids) = EmptyString).
Proof.
  intros Hn Henc Hw Hd.
  destruct (write_to_file_strings float_repr ids output_path w Henc Hw Hd)
    as [w' [E Hf]].
  pose proof (sorted_str_perm ids) as Hp.
  assert (Hn' : NoDup (sorted_str ids))
    by apply (Permutation_NoDup (Permutation_sym Hp) Hn).
  exists w'. split; [exact E |]. split; [exact Hf |]. split.
  { pose proof (write_to_file_only_changes float_repr (map JStr ids) output_path w) as H.
    now rewrite E in H. }
  split; [exact Hp |]. split; [now apply sorted_str_strict |].
  split; [apply sorted_str_sorted |]. split; [exact Hn' |]. split.
  - intros Hnl.
    assert (L : lines_of (report_text (sorted_str ids)) = sorted_str ids).
    { apply lines_of_report. eapply forallb_perm; eauto. }
    rewrite L. split; [reflexivity |]. split; [exact Hn' |].
    intros Hne Hin. apply Hne. apply (Permutation_in _ Hp Hin).
  - intros ->. reflexivity.
Qed.

(** C9: with followers [{alice, bob}] and following [{alice, carol, dan}],
    in whatever order the two sets list their elements, the
    non-follow-back set is [{carol, dan}] and the file written from it
    holds exactly [carol], newline, [dan], newline. *)
Theorem scenario_carol_dan
    (following followers : pyset) (output_path : string) (w : world) :
  Permutation following (map JStr ["alice"; "carol"; "dan"]) ->
  Permutation followers (map JStr ["alice"; "bob"]) ->
  files w output_path <> Some Locked ->
  files w output_path <> Some Dangling ->
  let not_following_back := find_non_followers following followers in
  Permutation not_following_back (map JStr ["carol"; "dan"]) /\
  exists w',
    write_to_file float_repr not_following_back output_path w = (w', Ok tt) /\
    files w' output_path =
      Some (File ("carol" ++ newline ++ "dan" ++ newline)%string).
Proof.
  intros HA HB Hw Hd nfb.
  assert (Hmem : forall id, set_mem (JStr id) followers = true <->
                            id = "alice" \/ id = "bob").
  { intros id. rewrite set_mem_str. split.
    - intros H. apply (Permutation_in _ HB) in H. simpl in H.
      destruct H as [H | [H | []]]; inversion H; auto.
    - intros H. apply (Permutation_in _ (Permutation_sym HB)). simpl.
      destruct H as [-> | ->]; auto. }
  assert (HP : Permutation nfb (map JStr ["carol"; "dan"])).
  { apply NoDup_Permutation.
    - apply NoDup_filter.
      apply (Permutation_NoDup (Permutation_sym HA)).
      repeat constructor; simpl; intuition discriminate.
    - repeat constructor; simpl; intuition discriminate.
    - intros x. unfold nfb. rewrite find_non_followers_In. split.
      + intros [H1 H2]. apply (Permutation_in _ HA) in H1. simpl in H1.
        destruct H1 as [<- | [<- | [<- | []]]]; simpl; auto.
        exfalso. assert (K : set_mem (JStr "alice") followers = true)
          by (apply Hmem; auto). congruence.
      + intros H. simpl in H. destruct H as [<- | [<- | []]].
        * split.
          -- apply (Permutation_in _ (Permutation_sym HA)). simpl. auto.
          -- destruct (set_mem (JStr "carol") followers) eqn:K; auto.
             apply Hmem in K. destruct K; discriminate.
        * split.
          -- apply (Permutation_in _ (Permutation_sym HA)). simpl. auto.
          -- destruct (set_mem (JStr "dan") followers) eqn:K; auto.
             apply Hmem in K. destruct K; discriminate. }
  split; [exact HP |].
  destruct (Permutation_map_inv _ _ HP) as [ids [Hids Hperm]].
  assert (Henc : forallb encodable ids = true).
  { apply (forallb_perm encodable ids ["carol"; "dan"]);
      [now apply Permutation_sym | reflexivity]. }
  destruct (write_to_file_strings float_repr ids output_path w Henc Hw Hd)
    as [w' [E Hf]].
  exists w'. rewrite Hids. split; [exact E |].
  rewrite Hf. rewrite (sorted_str_of_perm ["carol"; "dan"] ids).
  - reflexivity.
  - repeat constructor; simpl; intuition discriminate.
  - now apply Permutation_sym.
Qed.

End ReportClaims.

(** ** The loader and the top-level flow *)

Section MainClaims.

Variable json_loads : string -> parse.
Variable float_repr : spec_float -> string.

Lemma load_json_file_eq (filepath : string) (w : world) :
  load_json_file json_loads filepath w =
  (w, read_json json_loads (files w) filepath).
Proof.
  unfold load_json_file, read_json, io_bind, path_exists, exists_at, open_read,
    io_raise, io_ret.
  destruct (files w filepath) as [[text | | |] |] eqn:E; simpl; rewrite ?E; auto.
  destruct (json_loads text); reflexivity.
Qed.

Ltac said := unfold say; cbn [files stdout app]; rewrite <- ?app_assoc; reflexivity.

Lemma main_unrolled (w : world) :
  main json_loads float_repr w = main_steps json_loads float_repr w.
Proof.
  unfold main, main_steps, io_bind, try_except, print, path_exists, lift.
  cbn [files stdout fst snd]. fold (resolved_followers_path w).
  rewrite load_json_file_eq. cbn [files stdout fst snd].
  destruct (read_json json_loads (files w) (resolved_followers_path w))
    as [d1 | e1]; [| destruct e1; said].
  rewrite load_json_file_eq. cbn [files stdout fst snd].
  destruct (read_json json_loads (files w) following_json)
    as [d2 | e2]; [| destruct e2; said].
  cbn [bind].
  destruct (extract_followers d1) as [s1 | e1]; cbn [bind];
    [| destruct e1; said].
  destruct (extract_following d2) as [s2 | e2]; cbn [bind];
    [| destruct e2; said].
  cbn [files stdout fst snd].
  assert (B : {| files := files w;
                 stdout := ((((((stdout w ++ [Title]) ++ [Rule]) ++
                   [LoadingFollowers (resolved_followers_path w)]) ++
                   [LoadingFollowing following_json]) ++
                   [ExtractingUsernames]) ++
                   [FoundFollowers (len s1)]) ++
                   [FoundFollowing (len s2)] |} =
              say (progress_lines (resolved_followers_path w) s1 s2) w).
  { unfold say, progress_lines. rewrite <- !app_assoc. reflexivity. }
  rewrite B. destruct (truthy (find_non_followers s2 s1)); [| reflexivity].
  destruct (write_to_file float_repr _ _ _) as [w' [[] | e]]; [said |].
  destruct e; said.
Qed.

Lemma read_json_missing (fs : filesystem) (filepath : string) :
  read_json json_loads fs filepath = Raise (FileNotFoundError filepath) <->
  exists_at fs filepath = false.
Proof.
  unfold read_json, exists_at.
  destruct (fs filepath) as [[text | | |] |];
    [destruct (json_loads text) | | | |]; split; congruence.
Qed.

Lemma read_json_invalid (fs : filesystem) (filepath : string) :
  read_json json_loads fs filepath = Raise JSONDecodeError <->
  exists text, fs filepath = Some (File text) /\ json_loads text = Invalid.
Proof.
  unfold read_json.
  destruct (fs filepath) as [[text | | |] |];
    [destruct (json_loads text) eqn:J | | | |]; split;
    try congruence; try (intros [t [H1 H2]]; congruence).
  intros _. eauto.
Qed.

Lemma read_json_text (fs : filesystem) (filepath text : string) :
  fs filepath = Some (File text) ->
  read_json json_loads fs filepath =
  match json_loads text with
  | Parsed data => Ok data
  | Invalid => Raise JSONDecodeError
  | TooLong => Raise ValueError
  | TooDeep => Raise RecursionError
  end.
Proof. unfold read_json. now intros ->. Qed.

Lemma main_first_load_fails (w : world) (e : exn) :
  read_json json_loads (files w) (resolved_followers_path w) = Raise e ->
  main json_loads float_repr w =
  (say ([Title; Rule; LoadingFollowers (resolved_followers_path w)] ++
        except_lines e) w, Ok tt).
Proof. intros H. rewrite main_unrolled. unfold main_steps. now rewrite H. Qed.

Lemma main_second_load_fails (w : world) (followers_data : json) (e : exn) :
  read_json json_loads (files w) (resolved_followers_path w) = Ok followers_data ->
  read_json json_loads (files w) following_json = Raise e ->
  main json_loads float_repr w =
  (say ([Title; Rule; LoadingFollowers (resolved_followers_path w);
         LoadingFollowing following_json] ++ except_lines e) w, Ok tt).
Proof.
  intros H1 H2. rewrite main_unrolled. unfold main_steps. now rewrite H1, H2.
Qed.

(** C6, as amended: [load_json_file] raises [FileNotFoundError] exactly
    when nothing exists at the path, and [JSONDecodeError] exactly when
    the file holds UTF-8 text that the parser rejects as invalid JSON;
    both leave the world as it was.  In [main] each of the two reaches the
    handler as it was raised, for the followers file as for the following
    file, and the handler prints the missing-file guidance for the one and
    the invalid-JSON notice for the other.  A file whose bytes are not
    UTF-8 raises [UnicodeDecodeError], and a text the parser gives up on
    raises [ValueError] or [RecursionError]: these are not signalled as
    malformed input, and [main] prints the catch-all line for them. *)
Theorem loader_error_kinds (w : world) (filepath : string) :
  (load_json_file json_loads filepath w = (w, Raise (FileNotFoundError filepath))
   <-> exists_at (files w) filepath = false) /\
  (load_json_file json_loads filepath w = (w, Raise JSONDecodeError)
   <-> exists text,
         files w filepath = Some (File text) /\ json_loads text = Invalid) /\
  (files w filepath = Some Binary ->
   load_json_file json_loads filepath w = (w, Raise UnicodeDecodeError)) /\
  (forall text,
     files w filepath = Some (File text) ->
     (json_loads text = TooLong ->
      load_json_file json_loads filepath w = (w, Raise ValueError)) /\
     (json_loads text = TooDeep ->
      load_json_file json_loads filepath w = (w, Raise RecursionError))) /\
  (let followers_path := resolved_followers_path w in
   (exists_at (files w) followers_path = false ->
    main json_loads float_repr w =
    (say [Title; Rule; LoadingFollowers followers_path;
          ErrorLine (FileNotFoundError followers_path);
          MakeSureYouHave; Step1Requested; Step2Extracted; Step3Placed] w,
     Ok tt)) /\
   (forall text,
      files w followers_path = Some (File text) -> json_loads text = Invalid ->
      main json_loads float_repr w =
      (say [Title; Rule; LoadingFollowers followers_path;
            InvalidJSONFormat JSONDecodeError; MayBeCorrupted] w,
       Ok tt)) /\
   (forall text followers_data,
      files w followers_path = Some (File text) ->
      json_loads text = Parsed followers_data ->
      exists_at (files w) following_json = false ->
      main json_loads float_repr w =
      (say [Title; Rule; LoadingFollowers followers_path;
            LoadingFollowing following_json;
            ErrorLine (FileNotFoundError following_json);
            MakeSureYouHave; Step1Requested; Step2Extracted; Step3Placed] w,
       Ok tt)) /\
   (forall text followers_data text',
      files w followers_path = Some (File text) ->
      json_loads text = Parsed followers_data ->
      files w following_json = Some (File text') -> json_loads text' = Invalid ->
      main json_loads float_repr w =
      (say [Title; Rule; LoadingFollowers followers_path;
            LoadingFollowing following_json;
            InvalidJSONFormat JSONDecodeError; MayBeCorrupted] w,
       Ok tt)) /\
   (files w followers_path = Some Binary ->
    main json_loads float_repr w =
    (say [Title; Rule; LoadingFollowers followers_path;
          UnexpectedError UnicodeDecodeError] w, Ok tt)) /\
   (forall text,
      files w followers_path = Some (File text) ->
      (json_loads text = TooLong ->
       main json_loads float_repr w =
       (say [Title; Rule; LoadingFollowers followers_path;
             UnexpectedError ValueError] w, Ok tt)) /\
      (json_loads text = TooDeep ->
       main json_loads float_repr w =
       (say [Title; Rule; LoadingFollowers followers_path;
             UnexpectedError RecursionError] w, Ok tt)))).
Proof.
  rewrite !load_json_file_eq.
  split; [| split; [| split; [| split]]].
  - rewrite <- read_json_missing. split; congruence.
  - rewrite <- read_json_invalid. split; congruence.
  - intros H. unfold read_json. now rewrite H.
  - intros text H. rewrite (read_json_text _ _ _ H).
    split; intros ->; reflexivity.
  - intros followers_path. unfold followers_path.
    split; [| split; [| split; [| split; [| split]]]].
    + intros H. apply read_json_missing in H.
      now rewrite (main_first_load_fails w _ H).
    + intros text H J.
      rewrite (main_first_load_fails w JSONDecodeError); [reflexivity |].
      now rewrite (read_json_text _ _ _ H), J.
    + intros text d H J H'. apply read_json_missing in H'.
      assert (R : read_json json_loads (files w) (resolved_followers_path w) = Ok d)
        by now rewrite (read_json_text _ _ _ H), J.
      now rewrite (main_second_load_fails w d _ R H').
    + intros text d text' H J H' J'.
      assert (R : read_json json_loads (files w) (resolved_followers_path w) = Ok d)
        by now rewrite (read_json_text _ _ _ H), J.
      rewrite (main_second_load_fails w d JSONDecodeError R); [reflexivity |].
      now rewrite (read_json_text _ _ _ H'), J'.
    + intros H.
      rewrite (main_first_load_fails w UnicodeDecodeError); [reflexivity |].
      unfold read_json. now rewrite H.
    + intros text H. split; intros J.
      * rewrite (main_first_load_fails w ValueError); [reflexivity |].
        now rewrite (read_json_text _ _ _ H), J.
      * rewrite (main_first_load_fails w RecursionError); [reflexivity |].
        now rewrite (read_json_text _ _ _ H), J.
Qed.

Lemma truthy_nonempty (s : pyset) : truthy s = true <-> s <> [].
Proof. destruct s; simpl; split; congruence. Qed.

Lemma computes_read_json (w : world) (followers following : pyset) :
  computes json_loads w followers following <->
  exists followers_data following_data,
    read_json json_loads (files w) (resolved_followers_path w) = Ok followers_data /\
    read_json json_loads (files w) following_json = Ok following_data /\
    extract_followers followers_data = Ok followers /\
    extract_following following_data = Ok following.
Proof.
  unfold computes, read_json. split.
  - intros (t1 & t2 & d1 & d2 & F1 & J1 & F2 & J2 & E1 & E2).
    exists d1, d2. now rewrite F1, J1, F2, J2.
  - intros (d1 & d2 & R1 & R2 & E1 & E2).
    destruct (files w (resolved_followers_path w)) as [[t1 | | |] |];
      try discriminate.
    destruct (json_loads t1) as [d1' | | |] eqn:J1; inversion R1; subst.
    destruct (files w following_json) as [[t2 | | |] |]; try discriminate.
    destruct (json_loads t2) as [d2' | | |] eqn:J2; inversion R2; subst.
    exists t1, t2, d1, d2. auto 10.
Qed.

Lemma main_after_extraction (w : world) (followers following : pyset) :
  computes json_loads w followers following ->
  main json_loads float_repr w =
  let not_following_back := find_non_followers following followers in
  let before :=
    say (progress_lines (resolved_followers_path w) followers following) w in
  if truthy not_following_back then
    match write_to_file float_repr not_following_back not_following_back_txt before
    with
    | (w', Ok _) =>
        (say [FoundNonFollowers (len not_following_back);
              ResultsSavedTo not_following_back_txt] w', Ok tt)
    | (w', Raise e) => (say (except_lines e) w', Ok tt)
    end
  else (say [EveryoneFollowsBack] before, Ok tt).
Proof.
  intros C. apply computes_read_json in C.
  destruct C as (d1 & d2 & R1 & R2 & E1 & E2).
  rewrite main_unrolled. unfold main_steps. now rewrite R1, R2, E1, E2.
Qed.

(** C5: when the run gets as far as the non-follow-back set and that set
    is empty, [main] writes no file and ends on the line saying that
    everyone follows back; when it is not empty [main] calls
    [write_to_file] on it and then reports the count and the path.  In
    every run, a file differs afterwards only if it is the output file and
    the non-follow-back set was computed and is not empty. *)
Theorem main_writes_only_nonempty (w : world) (followers following : pyset) :
  computes json_loads w followers following ->
  let not_following_back := find_non_followers following followers in
  let before := say (progress_lines (resolved_followers_path w) followers following) w in
  (not_following_back = [] ->
   main json_loads float_repr w = (say [EveryoneFollowsBack] before, Ok tt) /\
   files (fst (main json_loads float_repr w)) = files w) /\
  (not_following_back <> [] ->
   forall w',
     write_to_file float_repr not_following_back not_following_back_txt before
       = (w', Ok tt) ->
     main json_loads float_repr w =
     (say [FoundNonFollowers (len not_following_back);
           ResultsSavedTo not_following_back_txt] w', Ok tt)) /\
  (forall w0 p,
     files (fst (main json_loads float_repr w0)) p <> files w0 p ->
     p = not_following_back_txt /\
     exists followers0 following0,
       computes json_loads w0 followers0 following0 /\
       find_non_followers following0 followers0 <> []).
Proof.
  intros C nfb before.
  pose proof (main_after_extraction w followers following C) as M.
  cbv zeta in M. fold nfb before in M.
  split; [| split].
  - intros H. rewrite M, H. simpl. auto.
  - intros H w' Hw. apply truthy_nonempty in H. rewrite M, H, Hw. reflexivity.
  - clear. intros w p. rewrite main_unrolled. unfold main_steps.
    destruct (read_json json_loads (files w) (resolved_followers_path w))
      as [d1 | e1] eqn:R1; [| cbn [fst files say]; congruence].
    destruct (read_json json_loads (files w) following_json)
      as [d2 | e2] eqn:R2; [| cbn [fst files say]; congruence].
    destruct (extract_followers d1) as [s1 | e1] eqn:E1;
      [| cbn [fst files say]; congruence].
    destruct (extract_following d2) as [s2 | e2] eqn:E2;
      [| cbn [fst files say]; congruence].
    destruct (truthy (find_non_followers s2 s1)) eqn:T;
      [| cbn [fst files say]; congruence].
    match goal with
    | |- context [write_to_file float_repr ?u ?q ?w1] =>
        pose proof (write_to_file_only_changes float_repr u q w1) as [_ OC];
        destruct (write_to_file float_repr u q w1) as [w' r]
    end.
    cbn [files stdout fst snd say] in OC.
    assert (R : files w' p <> files w p ->
                p = not_following_back_txt /\
                exists followers0 following0,
                  computes json_loads w followers0 following0 /\
                  find_non_followers following0 followers0 <> []).
    { intros Hp. destruct (string_dec p not_following_back_txt) as [-> | Hne].
      - split; [reflexivity |]. exists s1, s2. split.
        + apply computes_read_json. exists d1, d2. auto.
        + now apply truthy_nonempty.
      - destruct Hp. now apply OC. }
    destruct r as [[] | e]; cbn [files stdout fst snd say]; exact R.
Qed.

Lemma main_extraction_raises (w : world) (followers_data following_data : json) :
  read_json json_loads (files w) (resolved_followers_path w) = Ok followers_data ->
  read_json json_loads (files w) following_json = Ok following_data ->
  returns (extract_followers followers_data) &&
    returns (extract_following following_data) = false ->
  main json_loads float_repr w =
  (say [Title; Rule; LoadingFollowers (resolved_followers_path w);
        LoadingFollowing following_json; ExtractingUsernames;
        UnexpectedError TypeError] w, Ok tt).
Proof.
  intros R1 R2 H. rewrite main_unrolled. unfold main_steps. rewrite R1, R2.
  destruct (extract_followers followers_data) as [s1 | e1] eqn:E1.
  - destruct (extract_following following_data) as [s2 | e2] eqn:E2;
      [discriminate |].
    now rewrite (extract_following_raises _ _ E2).
  - now rewrite (extract_followers_raises _ _ E1).
Qed.

(** C7, as amended: on inputs of the documented shape whose extracted
    fields are hashable, [extract_followers] and [extract_following] return
    without an error, and the sets they return are well formed;
    [find_non_followers] yields the difference of any two sets.  On other
    parsed JSON the extractors may raise; the only error they raise is
    [TypeError], and when either of them raises after both files have
    loaded, [main] ends in its catch-all handler: it prints the
    unexpected-error line for the [TypeError] and changes no file. *)
Theorem extraction_returns_on_documented_shapes
    (followers_data following_data : json) :
  followers_shape hashable followers_data = true ->
  following_shape hashable following_data = true ->
  (exists followers following,
     extract_followers followers_data = Ok followers /\
     extract_following following_data = Ok following /\
     wf_set followers = true /\ wf_set following = true /\
     wf_set (find_non_followers following followers) = true) /\
  (forall following followers x,
     In x (find_non_followers following followers) <->
     In x following /\ set_mem x followers = false) /\
  (forall data e, extract_followers data = Raise e -> e = TypeError) /\
  (forall data e, extract_following data = Raise e -> e = TypeError) /\
  (forall w data1 data2,
     read_json json_loads (files w) (resolved_followers_path w) = Ok data1 ->
     read_json json_loads (files w) following_json = Ok data2 ->
     returns (extract_followers data1) && returns (extract_following data2)
       = false ->
     main json_loads float_repr w =
     (say [Title; Rule; LoadingFollowers (resolved_followers_path w);
           LoadingFollowing following_json; ExtractingUsernames;
           UnexpectedError TypeError] w, Ok tt)).
Proof.
  intros H1 H2.
  destruct (extract_followers_returns hashable followers_data (fun v H => H) H1)
    as [s1 E1].
  destruct (extract_following_returns hashable following_data (fun v H => H) H2)
    as [s2 E2].
  destruct (extract_followers_sound _ _ E1) as [W1 _].
  destruct (extract_following_sound _ _ E2) as [W2 _].
  split; [| split; [| split; [| split]]].
  - exists s1, s2. repeat split; auto. now apply wf_set_filter.
  - intros. apply find_non_followers_In.
  - apply extract_followers_raises.
  - apply extract_following_raises.
  - apply main_extraction_raises.
Qed.

End MainClaims.

(** * The definitions at work *)

Lemma find_non_followers_is_difference_witness :
  wf_set [JStr "alice"; JStr "carol"] = true /\
  wf_set (find_non_followers [JStr "alice"; JStr "carol"] [JStr "alice"]) = true.
Proof.
  split; [reflexivity |].
  apply (find_non_followers_is_difference
           [JStr "alice"; JStr "carol"] [JStr "alice"]).
  reflexivity.
Defined.

Lemma find_non_followers_empty_iff_subset_witness :
  find_non_followers [JStr "alice"] [JStr "bob"; JStr "alice"] = [].
Proof.
  apply (find_non_followers_empty_iff_subset [JStr "alice"] [JStr "bob"; JStr "alice"]).
  intros x [<- | []]. reflexivity.
Defined.

Lemma extract_followers_valid_witness :
  valid_followers sample_followers = true /\
  exists usernames,
    extract_followers sample_followers = Ok usernames /\
    NoDup usernames /\
    wf_set usernames = true /\
    forall x, In x usernames <->
              (exists id, x = JStr id) /\ follower_value sample_followers x.
Proof.
  split; [reflexivity |].
  apply (extract_followers_valid sample_followers). reflexivity.
Defined.

Lemma extract_following_valid_witness :
  valid_following sample_following = true /\
  exists usernames,
    extract_following sample_following = Ok usernames /\
    NoDup usernames /\
    wf_set usernames = true /\
    (forall x, In x usernames <->
               (exists id, x = JStr id) /\ following_title sample_following x) /\
    (py_contains "relationships_following" sample_following = Ok false ->
     usernames = []).
Proof.
  split; [reflexivity |].
  apply (extract_following_valid sample_following). reflexivity.
Defined.

Lemma extraction_returns_on_documented_shapes_witness :
  followers_shape hashable sample_followers = true /\
  following_shape hashable sample_following = true /\
  exists followers following,
    extract_followers sample_followers = Ok followers /\
    extract_following sample_following = Ok following /\
    wf_set followers = true /\ wf_set following = true /\
    wf_set (find_non_followers following followers) = true.
Proof.
  split; [reflexivity |]. split; [reflexivity |].
  apply (extraction_returns_on_documented_shapes tiny_loads no_floats
           sample_followers sample_following); reflexivity.
Defined.

(** C7 as stated fails: a record whose [string_list_data] is [null] and a
    [relationships_following] that is a number are parsed JSON, and both
    extractors raise [TypeError] on them. *)
Lemma extraction_raises_on_unexpected_shapes :
  extract_followers (JArr [JObj [("string_list_data", JNull)]]) = Raise TypeError /\
  extract_following (JObj [("relationships_following", JInt 3)]) = Raise TypeError /\
  extract_followers (JArr [JInt 1]) = Raise TypeError.
Proof. repeat split; reflexivity. Qed.

Lemma extractors_do_not_validate_witness :
  let data := JObj [("relationships_following",
                     JArr [JObj [("title", JInt 7)]; JObj [("title", JStr "dan")]])] in
  is_string (JInt 7) = false /\
  following_title data (JInt 7) /\
  forall s, extract_following data = Ok s ->
    exists x, In x s /\ key_eqb (JInt 7) x = true /\ is_string x = false /\
              following_title data x.
Proof.
  intros data.
  assert (T : following_title data (JInt 7)).
  { exists [("relationships_following",
             JArr [JObj [("title", JInt 7)]; JObj [("title", JStr "dan")]])],
           [JObj [("title", JInt 7)]; JObj [("title", JStr "dan")]],
           [("title", JInt 7)].
    repeat split; simpl; auto. }
  split; [reflexivity |]. split; [exact T |].
  destruct (extractors_do_not_validate data (JInt 7) eq_refl) as (_ & H & _).
  exact (H T).
Defined.

(** C10 as stated fails: a [title] and a [value] holding a list are
    non-string JSON values, and the extractors raise [TypeError] on them
    instead of returning a set with them. *)
Lemma unhashable_field_is_not_added :
  extract_following
    (JObj [("relationships_following", JArr [JObj [("title", JArr [])]])])
    = Raise TypeError /\
  extract_followers
    (JArr [JObj [("string_list_data", JArr [JObj [("value", JObj [])]])]])
    = Raise TypeError.
Proof. split; reflexivity. Qed.

Lemma write_to_file_sorted_lines_witness :
  NoDup ["dan"; "carol"] /\
  forallb encodable ["dan"; "carol"] = true /\
  files empty_world not_following_back_txt <> Some Locked /\
  files empty_world not_following_back_txt <> Some Dangling /\
  exists w',
    write_to_file no_floats (map JStr ["dan"; "carol"]) not_following_back_txt
      empty_world = (w', Ok tt) /\
    files w' not_following_back_txt =
      Some (File (report_text (sorted_str ["dan"; "carol"]))).
Proof.
  assert (N : NoDup ["dan"; "carol"]).
  { repeat constructor; simpl; intuition discriminate. }
  assert (W : files empty_world not_following_back_txt <> Some Locked)
    by discriminate.
  assert (D : files empty_world not_following_back_txt <> Some Dangling)
    by discriminate.
  split; [exact N |]. split; [reflexivity |]. split; [exact W |].
  split; [exact D |].
  destruct (write_to_file_sorted_lines no_floats ["dan"; "carol"]
              not_following_back_txt empty_world N eq_refl W D)
    as [w' (E & F & _)].
  exists w'. split; [exact E | exact F].
Defined.

(** C4 as stated fails: the empty string is an identifier, and the file
    written for the set holding it alone is one blank line. *)
Lemma write_to_file_blank_line :
  exists w',
    write_to_file no_floats [JStr ""] not_following_back_txt empty_world
      = (w', Ok tt) /\
    files w' not_following_back_txt = Some (File newline) /\
    lines_of newline = [EmptyString] /\
    In EmptyString (lines_of newline).
Proof.
  eexists. split; [reflexivity |]. split; [reflexivity |].
  split; [reflexivity |]. simpl. auto.
Qed.

Lemma scenario_carol_dan_witness :
  let following := map JStr ["alice"; "carol"; "dan"] in
  let followers := map JStr ["alice"; "bob"] in
  Permutation following (map JStr ["alice"; "carol"; "dan"]) /\
  Permutation followers (map JStr ["alice"; "bob"]) /\
  files empty_world not_following_back_txt <> Some Locked /\
  files empty_world not_following_back_txt <> Some Dangling /\
  Permutation (find_non_followers following followers) (map JStr ["carol"; "dan"]) /\
  exists w',
    write_to_file no_floats (find_non_followers following followers)
      not_following_back_txt empty_world = (w', Ok tt) /\
    files w' not_following_back_txt =
      Some (File ("carol" ++ newline ++ "dan" ++ newline)%string).
Proof.
  intros following followers.
  assert (W : files empty_world not_following_back_txt <> Some Locked)
    by discriminate.
  assert (D : files empty_world not_following_back_txt <> Some Dangling)
    by discriminate.
  split; [apply Permutation_refl |]. split; [apply Permutation_refl |].
  split; [exact W |]. split; [exact D |].
  apply (scenario_carol_dan no_floats following followers
           not_following_back_txt empty_world
           (Permutation_refl _) (Permutation_refl _) W D).
Defined.

Lemma computes_sample : computes tiny_loads sample_world [] [].
Proof.
  exists "[]", "{}", (JArr []), (JObj []). repeat split; reflexivity.
Defined.

Lemma main_writes_only_nonempty_witness :
  computes tiny_loads sample_world [] [] /\
  main tiny_loads no_floats sample_world =
  (say [EveryoneFollowsBack]
     (say (progress_lines followers_json [] []) sample_world), Ok tt).
Proof.
  split; [exact computes_sample |].
  destruct (main_writes_only_nonempty tiny_loads no_floats sample_world [] []
              computes_sample) as [H _].
  destruct (H eq_refl) as [M _]. exact M.
Defined.

Lemma loader_error_kinds_witness :
  exists_at (files empty_world) (resolved_followers_path empty_world) = false /\
  main tiny_loads no_floats empty_world =
  (say [Title; Rule; LoadingFollowers followers_json;
        ErrorLine (FileNotFoundError followers_json);
        MakeSureYouHave; Step1Requested; Step2Extracted; Step3Placed]
     empty_world, Ok tt).
Proof.
  split; [reflexivity |].
  destruct (loader_error_kinds tiny_loads no_floats empty_world followers_json)
    as (_ & _ & _ & _ & H & _).
  exact (H eq_refl).
Defined.

(** C6 as stated fails: a followers file whose bytes are not UTF-8 exists
    and is not valid JSON, yet the loader raises [UnicodeDecodeError], not
    [JSONDecodeError], and [main] prints the catch-all line for it. *)
Lemma undecodable_file_is_not_malformed_input :
  let w := world_of None (Some Binary) (Some (File "{}")) in
  exists_at (files w) followers_json = true /\
  load_json_file tiny_loads followers_json w = (w, Raise UnicodeDecodeError) /\
  main tiny_loads no_floats w =
  (say [Title; Rule; LoadingFollowers followers_json;
        UnexpectedError UnicodeDecodeError] w, Ok tt).
Proof. repeat split; reflexivity. Qed.

(** * Further properties *)

(** ** Key equality is an equivalence *)

Lemma scale_shift (m e k k0 : Z) :
  (k <= k0 <= e)%Z -> scale m e k = (scale m e k0 * 2 ^ (k0 - k))%Z.
Proof.
  intros H. unfold scale.
  replace (e - k)%Z with ((e - k0) + (k0 - k))%Z by lia.
  rewrite Z.pow_add_r by lia. ring.
Qed.

Lemma scale_eq_below (m1 e1 m2 e2 k : Z) :
  (k <= Z.min e1 e2)%Z ->
  scale m1 e1 k = scale m2 e2 k <->
  scale m1 e1 (Z.min e1 e2) = scale m2 e2 (Z.min e1 e2).
Proof.
  intros H.
  rewrite (scale_shift m1 e1 k (Z.min e1 e2)) by lia.
  rewrite (scale_shift m2 e2 k (Z.min e1 e2)) by lia.
  assert (P : (0 < 2 ^ (Z.min e1 e2 - k))%Z) by (apply Z.pow_pos_nonneg; lia).
  split; intros E; [| now rewrite E].
  apply Z.mul_cancel_r in E; lia.
Qed.

Lemma xnum_eqb_trans (x y z : xnum) :
  xnum_eqb x y = true -> xnum_eqb y z = true -> xnum_eqb x z = true.
Proof.
  destruct x as [| s | m1 e1], y as [| t | m2 e2], z as [| u | m3 e3];
    simpl; try discriminate; auto.
  - destruct s, t, u; auto.
  - rewrite !Z.eqb_eq. intros H1 H2.
    set (k := Z.min e1 (Z.min e2 e3)).
    apply (scale_eq_below m1 e1 m2 e2 k) in H1; [| unfold k; lia].
    apply (scale_eq_below m2 e2 m3 e3 k) in H2; [| unfold k; lia].
    apply (scale_eq_below m1 e1 m3 e3 k); [unfold k; lia | congruence].
Qed.

Lemma key_eqb_trans (a b c : json) :
  key_eqb a b = true -> key_eqb b c = true -> key_eqb a c = true.
Proof.
  destruct a, b, c; cbn [key_eqb as_number]; try discriminate; auto;
    try apply xnum_eqb_trans.
  rewrite !String.eqb_eq. congruence.
Qed.

(** Equal keys are members of the same sets. *)
Lemma set_mem_key (x y : json) (s : pyset) :
  key_eqb x y = true -> set_mem x s = set_mem y s.
Proof.
  intros K. induction s as [| z s IH]; simpl; auto.
  rewrite IH. f_equal.
  destruct (key_eqb x z) eqn:A, (key_eqb y z) eqn:B; auto.
  - rewrite key_eqb_sym in K.
    now rewrite (key_eqb_trans y x z K A) in B.
  - now rewrite (key_eqb_trans x y z K B) in A.
Qed.


(** ** More about the differ *)

Lemma set_mem_cons (x y : json) (s : pyset) :
  set_mem x (y :: s) = key_eqb x y || set_mem x s.
Proof. reflexivity. Qed.

(** X1: membership in [find_non_followers following followers], as
    Python's [in] tests it, is membership in [following] and not in
    [followers], also for numbers that are equal across types. *)
Theorem find_non_followers_membership (following followers : pyset) (x : json) :
  set_mem x (find_non_followers following followers) =
  set_mem x following && negb (set_mem x followers).
Proof.
  unfold find_non_followers, set_diff.
  induction following as [| y l IH]; [reflexivity |].
  cbn [filter]. rewrite set_mem_cons.
  destruct (key_eqb x y) eqn:K.
  - rewrite (set_mem_key x y followers K) in *.
    destruct (set_mem y followers); cbn [negb orb andb].
    + rewrite IH. apply andb_false_r.
    + rewrite set_mem_cons, K. reflexivity.
  - destruct (negb (set_mem y followers)); rewrite ?set_mem_cons, ?K; exact IH.
Qed.

(** X2: subtracting the empty set changes nothing; a set minus itself is
    empty; the result is never larger than [following], none of its
    elements is a member of [followers], and together with the elements
    of [following] that are members of [followers] it accounts for all of
    [following]. *)
Theorem find_non_followers_edges (following followers : pyset) :
  forallb hashable following = true ->
  find_non_followers following [] = following /\
  find_non_followers following following = [] /\
  (len (find_non_followers following followers) <= len following)%nat /\
  (forall x, In x (find_non_followers following followers) ->
             set_mem x followers = false) /\
  len (find_non_followers following followers) +
    len (filter (fun x => set_mem x followers) following) = len following.
Proof.
  intros Hh. split; [| split; [| split; [| split]]].
  - unfold find_non_followers, set_diff. clear.
    induction following as [| y l IH]; [reflexivity |].
    cbn [filter set_mem existsb negb]. f_equal. exact IH.
  - destruct (find_non_followers following following) as [| y l] eqn:E; auto.
    assert (K : In y (find_non_followers following following))
      by (rewrite E; simpl; auto).
    apply find_non_followers_In in K. destruct K as [K1 K2].
    rewrite forallb_forall in Hh.
    rewrite (set_mem_In y following (Hh y K1) K1) in K2. discriminate.
  - apply filter_length_le.
  - intros x Hx. now apply find_non_followers_In in Hx.
  - unfold find_non_followers, set_diff, len. clear.
    induction following as [| y l IH]; simpl; auto.
    destruct (set_mem y followers); simpl; lia.
Qed.


(** ** More about the extractors *)

Lemma for_each_app {A S : Type} (xs ys : list A) (body : A -> S -> result S) (s : S) :
  for_each (xs ++ ys) body s = (s1 <- for_each xs body s ;; for_each ys body s1).
Proof.
  revert s. induction xs as [| x xs IH]; intros s; simpl; auto.
  destruct (body x s); simpl; auto.
Qed.

(** Whether a loop raises does not depend on the set built so far. *)
Lemma for_each_returns_state {A S : Type} (xs : list A) (body : A -> S -> result S) :
  (forall x s s', returns (body x s) = returns (body x s')) ->
  forall s s', returns (for_each xs body s) = returns (for_each xs body s').
Proof.
  intros Hb. induction xs as [| x xs IH]; intros s s'; simpl; auto.
  specialize (Hb x s s').
  destruct (body x s), (body x s'); simpl in *; auto; discriminate.
Qed.

Lemma field_step_returns_state (key : string) (item : json) (s s' : pyset) :
  returns (field_step key item s) = returns (field_step key item s').
Proof.
  unfold field_step. destruct item; simpl; auto.
  - destruct (substring_of key s0); reflexivity.
  - destruct (existsb (is_str key) items); reflexivity.
  - destruct (dict_get key fields) as [v |]; simpl; auto.
    unfold set_add. destruct (hashable v); reflexivity.
Qed.

Lemma entry_step_returns_state (entry : json) (s s' : pyset) :
  returns (entry_step entry s) = returns (entry_step entry s').
Proof.
  unfold entry_step. destruct entry; simpl; auto.
  - destruct (substring_of _ s0); reflexivity.
  - destruct (existsb _ items); reflexivity.
  - destruct (dict_get "string_list_data" fields) as [sld |]; simpl; auto.
    destruct (py_iter sld) as [items | e]; simpl; auto.
    apply for_each_returns_state. intros. apply field_step_returns_state.
Qed.

Lemma follower_value_app (a b : list json) (v : json) :
  follower_value (JArr (a ++ b)) v <->
  follower_value (JArr a) v \/ follower_value (JArr b) v.
Proof.
  rewrite !follower_value_entry. split.
  - intros (entries & entry & E & Hin & Hfrom). inversion E; subst entries.
    apply in_app_or in Hin. destruct Hin; [left | right]; eauto.
  - intros [(entries & entry & E & Hin & Hfrom) | (entries & entry & E & Hin & Hfrom)];
      inversion E; subst entries; exists (a ++ b), entry;
      repeat split; auto; apply in_or_app; auto.
Qed.

Lemma set_mem_exists (x : json) (s : pyset) :
  set_mem x s = true <-> exists y, In y s /\ key_eqb x y = true.
Proof. apply existsb_exists. Qed.

(** X3: the followers of two lists of records put end to end are the
    union of the followers of each: when [extract_followers] returns on
    both lists it returns on their concatenation, and a value is a member
    of that result exactly when it is a member of one of the two. *)
Theorem extract_followers_concat (a b : list json) (s1 s2 : pyset) :
  extract_followers (JArr a) = Ok s1 ->
  extract_followers (JArr b) = Ok s2 ->
  exists s,
    extract_followers (JArr (a ++ b)) = Ok s /\
    wf_set s = true /\
    forall x, set_mem x s = set_mem x s1 || set_mem x s2.
Proof.
  intros E1 E2.
  assert (R : exists s, extract_followers (JArr (a ++ b)) = Ok s).
  { rewrite extract_followers_unfold in *. simpl in *.
    rewrite for_each_app, E1. simpl.
    pose proof (for_each_returns_state b entry_step entry_step_returns_state [] s1) as H.
    rewrite E2 in H. destruct (for_each b entry_step s1) as [s |]; [eauto | discriminate]. }
  destruct R as [s E]. exists s. split; [exact E |].
  destruct (extract_followers_sound _ _ E) as (Hwf & Hin & Hmem).
  destruct (extract_followers_sound _ _ E1) as (_ & Hin1 & Hmem1).
  destruct (extract_followers_sound _ _ E2) as (_ & Hin2 & Hmem2).
  split; [exact Hwf |]. intros x.
  assert (F : set_mem x s = true <-> set_mem x s1 = true \/ set_mem x s2 = true).
  { split.
    - intros H. apply set_mem_exists in H. destruct H as [y [Hy K]].
      rewrite !(set_mem_key x y) by exact K.
      apply Hin, follower_value_app in Hy. destruct Hy; auto.
    - intros [H | H]; apply set_mem_exists in H; destruct H as [y [Hy K]];
        rewrite (set_mem_key x y) by exact K; apply Hmem, follower_value_app; auto. }
  apply Bool.eq_true_iff_eq. rewrite orb_true_iff. exact F.
Qed.

Lemma titles_loop (entries entries' : list json) (s : pyset) :
  forallb is_dict entries = true ->
  forallb is_dict entries' = true ->
  map title_of entries = map title_of entries' ->
  for_each entries (field_step "title") s = for_each entries' (field_step "title") s.
Proof.
  revert entries' s. induction entries as [| x xs IH]; intros [| y ys] s D D' M;
    try discriminate; auto.
  cbn [forallb map] in *. apply andb_prop in D, D'.
  destruct D as [Dx D], D' as [Dy D']. inversion M as [[Mh Mt]].
  destruct x; try discriminate. destruct y; try discriminate.
  cbn [title_of] in Mh. cbn [for_each].
  assert (B : forall t, field_step "title" (JObj fields) t =
                        field_step "title" (JObj fields0) t).
  { intros t. unfold field_step. cbn [py_contains py_getitem]. now rewrite Mh. }
  rewrite B. destruct (field_step "title" (JObj fields0) s); simpl; auto.
Qed.

(** X4: [extract_following] reads nothing of a record but its [title]:
    two following files whose records are dicts with the same titles, in
    the same order, give the same result, whatever else the records and
    the files hold. *)
Theorem extract_following_reads_titles_only
    (fields fields' : list (string * json)) (entries entries' : list json) :
  dict_get "relationships_following" fields = Some (JArr entries) ->
  dict_get "relationships_following" fields' = Some (JArr entries') ->
  forallb is_dict entries = true ->
  forallb is_dict entries' = true ->
  map title_of entries = map title_of entries' ->
  extract_following (JObj fields) = extract_following (JObj fields').
Proof.
  intros E E' D D' M. rewrite !extract_following_unfold. simpl.
  rewrite E, E'. simpl. now apply titles_loop.
Qed.

(** A wrong top-level shape can pass unnoticed. *)

Lemma skip_strings (key : string) (strs : list json) (s : pyset) :
  Forall (fun v => exists str, v = JStr str /\ substring_of key str = false) strs ->
  for_each strs (field_step key) s = Ok s.
Proof.
  induction 1 as [| v strs [str [-> Hs]] _ IH]; simpl; auto.
  unfold field_step at 1. simpl. rewrite Hs. simpl. exact IH.
Qed.

Lemma skip_entries (strs : list json) (s : pyset) :
  Forall (fun v => exists str,
            v = JStr str /\ substring_of "string_list_data" str = false) strs ->
  for_each strs entry_step s = Ok s.
Proof.
  induction 1 as [| v strs [str [-> Hs]] _ IH]; simpl; auto.
  unfold entry_step at 1. simpl. rewrite Hs. simpl. exact IH.
Qed.

Lemma substring_of_short (needle : string) (c : ascii) :
  (2 <= String.length needle)%nat ->
  substring_of needle (String c EmptyString) = false.
Proof.
  destruct needle as [| a [| b needle]]; simpl; try lia. intros _.
  destruct (ascii_dec a c); reflexivity.
Qed.

(** X13: a followers file that is a JSON string, or a JSON object none of
    whose keys contains [string_list_data], is not an error for
    [extract_followers]: it yields the empty set.  Likewise
    [extract_following] yields the empty set on a JSON list that does not
    hold the string [relationships_following] and on a JSON string that
    does not contain it. *)
Theorem extractors_silent_on_wrong_top_level
    (str : string) (fields : list (string * json)) (items : list json) :
  extract_followers (JStr str) = Ok [] /\
  (existsb (fun kv => substring_of "string_list_data" (fst kv)) fields = false ->
   extract_followers (JObj fields) = Ok []) /\
  (existsb (is_str "relationships_following") items = false ->
   extract_following (JArr items) = Ok []) /\
  (substring_of "relationships_following" str = false ->
   extract_following (JStr str) = Ok []).
Proof.
  split; [| split; [| split]].
  - rewrite extract_followers_unfold. simpl. apply skip_entries.
    unfold chars_of. apply Forall_forall. intros v Hv.
    apply in_map_iff in Hv. destruct Hv as [c [<- _]].
    exists (String c EmptyString). split; auto.
    apply substring_of_short. simpl. lia.
  - intros H. rewrite extract_followers_unfold. simpl. apply skip_entries.
    apply Forall_forall. intros v Hv.
    apply in_map_iff in Hv. destruct Hv as [[k x] [<- Hk]].
    exists k. split; auto.
    destruct (substring_of "string_list_data" k) eqn:E; auto.
    assert (K : existsb (fun kv => substring_of "string_list_data" (fst kv)) fields = true)
      by (apply existsb_exists; exists (k, x); auto).
    congruence.
  - intros H. rewrite extract_following_unfold. simpl. now rewrite H.
  - intros H. rewrite extract_following_unfold. simpl. now rewrite H.
Qed.

(** ** More about the reporter *)

Lemma py_lt_kinds (x y : json) (b : bool) :
  py_lt x y = Ok b ->
  (is_string x && is_string y) || (is_number x && is_number y) = true.
Proof. destruct x, y; simpl; try discriminate; auto. Qed.

Lemma py_lt_raises (x y : json) (e : exn) : py_lt x y = Raise e -> e = TypeError.
Proof. destruct x, y; simpl; try discriminate; congruence. Qed.

Lemma py_lt_numbers (x y : json) :
  is_number x = true -> is_number y = true -> exists b, py_lt x y = Ok b.
Proof. destruct x, y; simpl; try discriminate; eauto. Qed.

Lemma string_not_number (v : json) : is_string v = true -> is_number v = false.
Proof. destruct v; simpl; auto; discriminate. Qed.

Lemma insort_perm (x : json) (l l' : list json) :
  insort x l = Ok l' -> Permutation l' (x :: l).
Proof.
  revert l'. induction l as [| y l IH]; simpl; intros l' H.
  - inversion H. auto.
  - destruct (py_lt x y) as [[] |]; simpl in H; try discriminate.
    + inversion H. auto.
    + destruct (insort x l) as [r |]; simpl in H; inversion H; subst.
      rewrite (IH r eq_refl). apply perm_swap.
Qed.

Lemma insort_raises (x : json) (l : list json) (e : exn) :
  insort x l = Raise e -> e = TypeError.
Proof.
  induction l as [| y l IH]; simpl; [discriminate |].
  destruct (py_lt x y) as [[] | e'] eqn:E; simpl.
  - discriminate.
  - destruct (insort x l); simpl; [discriminate |]. intros H. inversion H; subst. auto.
  - intros H. inversion H; subst. eapply py_lt_raises; eauto.
Qed.

Lemma forallb_perm_eq {A : Type} (f : A -> bool) (l l' : list A) :
  Permutation l l' -> forallb f l = forallb f l'.
Proof.
  intros H. apply Bool.eq_true_iff_eq. split; apply forallb_perm; auto.
  now apply Permutation_sym.
Qed.

Lemma sortable_perm (l l' : list json) :
  Permutation l l' -> sortable l = sortable l'.
Proof.
  intros H. unfold sortable.
  now rewrite (Permutation_length H), !(forallb_perm_eq _ l l' H).
Qed.

Lemma sortable_insert (x : json) (acc acc' : list json) :
  insort x acc = Ok acc' -> sortable acc = true -> sortable (x :: acc) = true.
Proof.
  destruct acc as [| y rest]; [reflexivity |].
  simpl. destruct (py_lt x y) as [b |] eqn:E; simpl; [| discriminate].
  intros _ S. apply py_lt_kinds in E.
  unfold sortable in S. apply orb_true_iff in S.
  rewrite orb_true_iff in S.
  apply orb_true_iff in E. destruct E as [E | E]; apply andb_prop in E;
    destruct E as [Ex Ey].
  - assert (H : forallb is_string (y :: rest) = true).
    { destruct S as [[S | S] | S]; auto.
      - destruct rest; [simpl; now rewrite Ey | discriminate].
      - simpl in S. rewrite (string_not_number y Ey) in S. discriminate. }
    unfold sortable. apply orb_true_iff. left. apply orb_true_iff. right.
    cbn [forallb] in *. now rewrite Ex, H.
  - assert (H : forallb is_number (y :: rest) = true).
    { destruct S as [[S | S] | S]; auto.
      - destruct rest; [simpl; now rewrite Ey | discriminate].
      - simpl in S. apply andb_prop in S. destruct S as [S _].
        apply string_not_number in S. congruence. }
    unfold sortable. apply orb_true_iff. right.
    cbn [forallb] in *. now rewrite Ex, H.
Qed.

Lemma for_each_insort (users acc l : list json) :
  sortable acc = true ->
  for_each users insort acc = Ok l ->
  sortable (users ++ acc) = true /\ Permutation l (users ++ acc).
Proof.
  revert acc l. induction users as [| x users IH]; simpl; intros acc l S H.
  - inversion H; subst. auto.
  - destruct (insort x acc) as [acc' |] eqn:E; simpl in H; [| discriminate].
    pose proof (insort_perm _ _ _ E) as P.
    pose proof (sortable_insert _ _ _ E S) as S'.
    rewrite <- (sortable_perm _ _ P) in S'.
    destruct (IH acc' l S' H) as [S2 P2]. split.
    + rewrite <- S2. apply sortable_perm.
      rewrite P. apply Permutation_middle.
    + rewrite P2, P. symmetry. apply Permutation_middle.
Qed.

Lemma py_sorted_raises (users : pyset) (e : exn) :
  py_sorted users = Raise e -> e = TypeError.
Proof.
  apply (for_each_raises_only (fun e => e = TypeError)).
  intros x s e'. apply insort_raises.
Qed.

Lemma insort_numbers (x : json) (acc : list json) :
  is_number x = true -> forallb is_number acc = true ->
  exists acc', insort x acc = Ok acc' /\ forallb is_number acc' = true.
Proof.
  intros Hx. induction acc as [| y acc IH]; simpl; intros H.
  - exists [x]. simpl. now rewrite Hx.
  - apply andb_prop in H. destruct H as [Hy H].
    destruct (py_lt_numbers x y Hx Hy) as [b ->]. simpl. destruct b.
    + eexists. split; [reflexivity |]. simpl. now rewrite Hx, Hy, H.
    + destruct (IH H) as [r [-> Hr]]. simpl.
      eexists. split; [reflexivity |]. simpl. now rewrite Hy, Hr.
Qed.

Lemma for_each_insort_numbers (users acc : list json) :
  forallb is_number users = true -> forallb is_number acc = true ->
  exists l, for_each users insort acc = Ok l.
Proof.
  revert acc. induction users as [| x users IH]; simpl; intros acc H Ha; eauto.
  apply andb_prop in H. destruct H as [Hx H].
  destruct (insort_numbers x acc Hx Ha) as [acc' [-> Ha']]. simpl. auto.
Qed.

Lemma strings_are_map (s : list json) :
  forallb is_string s = true -> s = map JStr (ids_of s).
Proof.
  induction s as [| v s IH]; simpl; auto. intros H.
  apply andb_prop in H. destruct H as [Hv H]. destruct v; try discriminate.
  simpl. f_equal. auto.
Qed.

(** [sorted] returns exactly on the sortable sets, and then rearranges. *)
Lemma py_sorted_returns (users : pyset) :
  returns (py_sorted users) = sortable users.
Proof.
  destruct (py_sorted users) as [l | e] eqn:E; simpl.
  - symmetry. destruct (for_each_insort users [] l eq_refl E) as [S _].
    now rewrite app_nil_r in S.
  - symmetry. destruct (sortable users) eqn:S; auto. exfalso.
    unfold sortable in S. apply orb_true_iff in S. destruct S as [S | S];
      [apply orb_true_iff in S; destruct S as [S | S] |].
    + destruct users as [| x [| y users]]; simpl in S; try discriminate;
        unfold py_sorted in E; simpl in E; discriminate.
    + rewrite (strings_are_map users S), py_sorted_strings in E. discriminate.
    + destruct (for_each_insort_numbers users [] S eq_refl) as [l H].
      unfold py_sorted in E. congruence.
Qed.

Section ReporterOutcomes.

Variable float_repr : spec_float -> string.

(** The loop writes line after line and stops at the first element whose
    text has no encoding. *)
Lemma write_lines_general (p : string) (users : list json) :
  forall (text : string) (w : world),
    files w p = Some (File text) ->
    exists w',
      io_for_each users (write_line float_repr p) w =
        (w', if all_encodable float_repr users then Ok tt
             else Raise UnicodeEncodeError) /\
      files w' p = Some (File (text ++ written_lines float_repr users)).
Proof.
  induction users as [| u users IH]; intros text w Hw.
  - exists w. simpl. now rewrite append_nil_r.
  - cbn [io_for_each all_encodable forallb written_lines].
    unfold io_bind, write_line at 1, file_write.
    rewrite Hw, encodable_line.
    destruct (encodable (py_str float_repr u)); cbn [andb].
    + destruct (IH (text ++ (py_str float_repr u ++ newline))%string
                  (mkWorld (set_file p (File (text ++ (py_str float_repr u ++ newline)))
                              (files w)) (stdout w))) as [w' [E Hf]].
      { apply set_file_same. }
      exists w'. split; [exact E |].
      rewrite Hf, !append_assoc. reflexivity.
    + exists w. split; [reflexivity |]. now rewrite append_nil_r.
Qed.

Lemma write_to_file_unsortable (users : pyset) (output_path : string) (w : world) :
  sortable users = false ->
  write_to_file float_repr users output_path w = (w, Raise TypeError).
Proof.
  intros S. rewrite <- py_sorted_returns in S.
  unfold write_to_file, io_bind, lift.
  destruct (py_sorted users) as [sorted_users | e] eqn:E; [discriminate |].
  now rewrite (py_sorted_raises users e E).
Qed.

Lemma write_to_file_locked (users : pyset) (output_path : string) (w : world) :
  sortable users = true ->
  files w output_path = Some Locked ->
  write_to_file float_repr users output_path w = (w, Raise OSError).
Proof.
  intros S L. rewrite <- py_sorted_returns in S.
  unfold write_to_file, io_bind, lift, open_write.
  destruct (py_sorted users) as [sorted_users | e]; [| discriminate].
  now rewrite L.
Qed.

Lemma write_to_file_dangling (users : pyset) (output_path : string) (w : world) :
  sortable users = true ->
  files w output_path = Some Dangling ->
  write_to_file float_repr users output_path w =
  (w, Raise (NoSuchFileOrDirectory output_path)).
Proof.
  intros S L. rewrite <- py_sorted_returns in S.
  unfold write_to_file, io_bind, lift, open_write.
  destruct (py_sorted users) as [sorted_users | e]; [| discriminate].
  now rewrite L.
Qed.

Lemma py_sorted_perm (users : pyset) (sorted_users : list json) :
  py_sorted users = Ok sorted_users -> Permutation sorted_users users.
Proof.
  intros E. destruct (for_each_insort users [] sorted_users eq_refl E) as [_ P].
  now rewrite app_nil_r in P.
Qed.

Lemma write_to_file_opened (users : pyset) (output_path : string) (w : world) :
  sortable users = true ->
  files w output_path <> Some Locked ->
  files w output_path <> Some Dangling ->
  exists w' sorted_users,
    py_sorted users = Ok sorted_users /\
    Permutation sorted_users users /\
    write_to_file float_repr users output_path w =
      (w', if all_encodable float_repr sorted_users then Ok tt
           else Raise UnicodeEncodeError) /\
    files w' output_path =
      Some (File (written_lines float_repr sorted_users)) /\
    only_changes output_path w w'.
Proof.
  intros S HL HD.
  pose proof (write_to_file_only_changes float_repr users output_path w) as OC.
  rewrite <- py_sorted_returns in S.
  destruct (py_sorted users) as [sorted_users | e] eqn:E; [| discriminate].
  assert (W : write_to_file float_repr users output_path w =
              io_for_each sorted_users (write_line float_repr output_path)
                (mkWorld (set_file output_path (File "") (files w)) (stdout w))).
  { unfold write_to_file, io_bind, lift.
    rewrite E, (open_write_creates output_path w HL HD). reflexivity. }
  destruct (write_lines_general output_path sorted_users ""
              (mkWorld (set_file output_path (File "") (files w)) (stdout w)))
    as [w' [E' Hf]].
  { apply set_file_same. }
  rewrite W, E' in OC. rewrite W, E'. exists w', sorted_users.
  split; [reflexivity |]. split; [now apply py_sorted_perm |].
  split; [reflexivity |]. split; [exact Hf | exact OC].
Qed.



End ReporterOutcomes.

(** ** More about the top-level flow *)

Section MainFacts.

Variable json_loads : string -> parse.
Variable float_repr : spec_float -> string.

(** X8: the fallback name is chosen on existence alone.  When
    [followers_1.json] exists, it is the file [main] loads, and whatever
    goes wrong with it (it cannot be opened, its bytes are not UTF-8, its
    text is not valid JSON) ends the run with the lines of the handler for
    that error, even if a good [followers.json] lies next to it. *)
Theorem primary_followers_file_is_not_rescued (w : world) (e : exn) :
  exists_at (files w) followers_1_json = true ->
  read_json json_loads (files w) followers_1_json = Raise e ->
  resolved_followers_path w = followers_1_json /\
  main json_loads float_repr w =
  (say ([Title; Rule; LoadingFollowers followers_1_json] ++ except_lines e) w,
   Ok tt).
Proof.
  intros Hex Hr.
  assert (P : resolved_followers_path w = followers_1_json).
  { unfold resolved_followers_path. now rewrite Hex. }
  split; [exact P |].
  rewrite main_unrolled. unfold main_steps. rewrite P, Hr. reflexivity.
Qed.

(** X9: an extractor that raises ends the run in the catch-all handler:
    after both files have loaded, if [extract_followers] raises, or
    returns and [extract_following] raises, [main] prints the
    unexpected-error line for a [TypeError] right after the line
    announcing the extraction, prints no counts, and changes no file. *)
Theorem extraction_failure_is_unexpected_error
    (w : world) (followers_data following_data : json) :
  read_json json_loads (files w) (resolved_followers_path w) = Ok followers_data ->
  read_json json_loads (files w) following_json = Ok following_data ->
  returns (extract_followers followers_data) &&
    returns (extract_following following_data) = false ->
  main json_loads float_repr w =
  (say [Title; Rule; LoadingFollowers (resolved_followers_path w);
        LoadingFollowing following_json; ExtractingUsernames;
        UnexpectedError TypeError] w, Ok tt).
Proof.
  intros R1 R2 H. rewrite main_unrolled. unfold main_steps. rewrite R1, R2.
  destruct (extract_followers followers_data) as [s1 | e1] eqn:E1.
  - destruct (extract_following following_data) as [s2 | e2] eqn:E2;
      [discriminate |].
    now rewrite (extract_following_raises _ _ E2).
  - now rewrite (extract_followers_raises _ _ E1).
Qed.

(** X10: a following file that is a JSON object without the
    [relationships_following] key is not reported as a problem: [main]
    counts zero accounts followed, says that everyone follows back, and
    writes no file, whoever the followers are. *)
Theorem missing_key_reads_as_everyone_follows_back
    (w : world) (followers_data : json) (fields : list (string * json))
    (followers : pyset) :
  read_json json_loads (files w) (resolved_followers_path w) = Ok followers_data ->
  read_json json_loads (files w) following_json = Ok (JObj fields) ->
  dict_get "relationships_following" fields = None ->
  extract_followers followers_data = Ok followers ->
  main json_loads float_repr w =
  (say [Title; Rule; LoadingFollowers (resolved_followers_path w);
        LoadingFollowing following_json; ExtractingUsernames;
        FoundFollowers (len followers); FoundFollowing 0;
        EveryoneFollowsBack] w, Ok tt).
Proof.
  intros R1 R2 K E1. rewrite main_unrolled. unfold main_steps.
  rewrite R1, R2, E1, extract_following_unfold. simpl. rewrite K. simpl.
  unfold say, progress_lines. simpl. rewrite <- app_assoc. reflexivity.
Qed.

Lemma strings_stay_strings (following followers : pyset) :
  forallb is_string following = true ->
  forallb is_string (find_non_followers following followers) = true.
Proof.
  intros S. apply forallb_forall. intros x Hx. apply find_non_followers_In in Hx.
  rewrite forallb_forall in S. now apply S.
Qed.

Lemma all_encodable_strings (ids : list string) :
  all_encodable float_repr (map JStr ids) = forallb encodable ids.
Proof.
  unfold all_encodable. induction ids as [| id ids IH]; simpl; congruence.
Qed.


(** X12: a report that cannot be started changes nothing.  When the names
    that do not follow back cannot be sorted (strings mixed with numbers or
    with [None]) [main] prints the unexpected-error line for a [TypeError];
    when they can be sorted and the [open] of the output path is refused,
    for an [OSError]; when the output path leads nowhere, [open] raises its
    [FileNotFoundError] and [main] prints the missing-file guidance.  In
    the three cases the counts have been printed, the saved-to line is
    not, and no file is changed. *)
Theorem unopened_report_changes_nothing
    (w : world) (followers following : pyset) :
  computes json_loads w followers following ->
  find_non_followers following followers <> [] ->
  let not_following_back := find_non_followers following followers in
  let progress :=
    progress_lines (resolved_followers_path w) followers following in
  (sortable not_following_back = false ->
   main json_loads float_repr w =
   (say (progress ++ [UnexpectedError TypeError]) w, Ok tt)) /\
  (sortable not_following_back = true ->
   files w not_following_back_txt = Some Locked ->
   main json_loads float_repr w =
   (say (progress ++ [UnexpectedError OSError]) w, Ok tt)) /\
  (sortable not_following_back = true ->
   files w not_following_back_txt = Some Dangling ->
   main json_loads float_repr w =
   (say (progress ++
         [ErrorLine (NoSuchFileOrDirectory not_following_back_txt);
          MakeSureYouHave; Step1Requested; Step2Extracted; Step3Placed]) w,
    Ok tt)).
Proof.
  intros C N nfb progress.
  pose proof (main_after_extraction json_loads float_repr w followers following C) as M.
  cbv zeta in M. fold nfb progress in M.
  apply truthy_nonempty in N. fold nfb in N. rewrite N in M.
  set (before := say progress w) in *.
  split; [| split].
  - intros S. rewrite M.
    rewrite (write_to_file_unsortable float_repr nfb not_following_back_txt before S).
    unfold before, say. cbn [files stdout except_lines].
    now rewrite <- app_assoc.
  - intros S H. rewrite M.
    rewrite (write_to_file_locked float_repr nfb not_following_back_txt before S H).
    unfold before, say. cbn [files stdout except_lines].
    now rewrite <- app_assoc.
  - intros S H. rewrite M.
    rewrite (write_to_file_dangling float_repr nfb not_following_back_txt before S H).
    unfold before, say. cbn [files stdout except_lines].
    now rewrite <- app_assoc.
Qed.

(** X14: a name without UTF-8 encoding leaves a partial report.  When
    both files load, both extractors return, the accounts followed are all
    strings, some of them do not follow back, the output path can be
    opened and one of these names has no encoding, [main] ends in its
    catch-all handler with the unexpected-error line for a
    [UnicodeEncodeError], after the counts and without the saved-to line,
    and the output file holds the sorted names that come before the first
    one without encoding. *)
Theorem unencodable_name_leaves_partial_report
    (w : world) (followers following : pyset) :
  computes json_loads w followers following ->
  forallb is_string following = true ->
  find_non_followers following followers <> [] ->
  forallb encodable (ids_of (find_non_followers following followers)) = false ->
  files w not_following_back_txt <> Some Locked ->
  files w not_following_back_txt <> Some Dangling ->
  let not_following_back := find_non_followers following followers in
  exists w',
    main json_loads float_repr w = (w', Ok tt) /\
    files w' not_following_back_txt =
      Some (File (written_lines float_repr
                    (map JStr (sorted_str (ids_of not_following_back))))) /\
    (forall q, q <> not_following_back_txt -> files w' q = files w q) /\
    stdout w' =
      stdout w ++
      progress_lines (resolved_followers_path w) followers following ++
      [UnexpectedError UnicodeEncodeError].
Proof.
  intros C S N Henc Hw Hd nfb.
  pose proof (strings_stay_strings following followers S) as Snfb. fold nfb in Snfb.
  rewrite (main_after_extraction json_loads float_repr w followers following C).
  cbv zeta. fold nfb. apply truthy_nonempty in N. fold nfb in N. rewrite N.
  set (before := say (progress_lines (resolved_followers_path w) followers following) w).
  assert (Hb : files before not_following_back_txt <> Some Locked) by exact Hw.
  assert (Hb' : files before not_following_back_txt <> Some Dangling) by exact Hd.
  assert (So : sortable nfb = true).
  { unfold sortable. rewrite Snfb. now rewrite orb_true_r. }
  destruct (write_to_file_opened float_repr nfb not_following_back_txt before
              So Hb Hb') as (w1 & sorted_users & E & _ & W & F & O1 & O2).
  rewrite (strings_are_map nfb Snfb), py_sorted_strings in E.
  inversion E; subst sorted_users. clear E.
  rewrite all_encodable_strings in W.
  rewrite (forallb_perm_eq encodable _ _ (sorted_str_perm (ids_of nfb))) in W.
  fold nfb in Henc. rewrite Henc in W. rewrite W.
  eexists. split; [reflexivity |]. cbn [files stdout say except_lines].
  split; [exact F |]. split.
  - intros q Hq. now rewrite (O2 q Hq).
  - rewrite O1. unfold before, say. cbn [stdout]. now rewrite <- app_assoc.
Qed.

End MainFacts.

(** * The further properties at work *)

Lemma find_non_followers_edges_witness :
  forallb hashable [JStr "alice"; JStr "carol"] = true /\
  find_non_followers [JStr "alice"; JStr "carol"] [JStr "alice"; JStr "carol"] = [].
Proof.
  split; [reflexivity |].
  apply (find_non_followers_edges [JStr "alice"; JStr "carol"] [JStr "alice"]).
  reflexivity.
Defined.

Lemma extract_followers_concat_witness :
  let a := [JObj [("string_list_data", JArr [JObj [("value", JStr "alice")]])]] in
  let b := [JObj [("string_list_data", JArr [JObj [("value", JStr "bob")]])]] in
  extract_followers (JArr a) = Ok [JStr "alice"] /\
  extract_followers (JArr b) = Ok [JStr "bob"] /\
  exists s,
    extract_followers (JArr (a ++ b)) = Ok s /\
    wf_set s = true /\
    forall x, set_mem x s = set_mem x [JStr "alice"] || set_mem x [JStr "bob"].
Proof.
  intros a b. split; [reflexivity |]. split; [reflexivity |].
  apply (extract_followers_concat a b); reflexivity.
Defined.

Lemma extract_following_reads_titles_only_witness :
  let fields :=
    [("relationships_following",
      JArr [JObj [("title", JStr "dan"); ("string_list_data", JArr [JInt 1])]])] in
  let fields' :=
    [("exported", JBool true);
     ("relationships_following", JArr [JObj [("title", JStr "dan")]])] in
  extract_following (JObj fields) = extract_following (JObj fields').
Proof.
  intros fields fields'.
  apply (extract_following_reads_titles_only fields fields'
           [JObj [("title", JStr "dan"); ("string_list_data", JArr [JInt 1])]]
           [JObj [("title", JStr "dan")]]); reflexivity.
Defined.

Lemma extractors_silent_on_wrong_top_level_witness :
  extract_followers (JObj [("relationships_followers", JArr [])]) = Ok [] /\
  extract_following (JArr []) = Ok [].
Proof.
  destruct (extractors_silent_on_wrong_top_level
              "abc" [("relationships_followers", JArr [])] []) as (_ & A & B & _).
  split; [apply A | apply B]; reflexivity.
Defined.


Lemma primary_followers_file_is_not_rescued_witness :
  let w := world_of (Some (File "oops")) (Some (File "<followers export>"))
                    (Some (File "<following export>")) in
  exists_at (files w) followers_1_json = true /\
  read_json sample_loads (files w) followers_1_json = Raise JSONDecodeError /\
  main sample_loads no_floats w =
  (say ([Title; Rule; LoadingFollowers followers_1_json] ++
        except_lines JSONDecodeError) w, Ok tt).
Proof.
  intros w.
  assert (A : exists_at (files w) followers_1_json = true) by reflexivity.
  assert (B : read_json sample_loads (files w) followers_1_json = Raise JSONDecodeError)
    by reflexivity.
  split; [exact A |]. split; [exact B |].
  destruct (primary_followers_file_is_not_rescued sample_loads no_floats w
              JSONDecodeError A B) as (_ & M).
  exact M.
Defined.

Lemma extraction_failure_is_unexpected_error_witness :
  let w := world_of (Some (File "5")) None (Some (File "<following export>")) in
  read_json sample_loads (files w) (resolved_followers_path w) = Ok (JInt 5) /\
  read_json sample_loads (files w) following_json = Ok sample_following /\
  returns (extract_followers (JInt 5)) &&
    returns (extract_following sample_following) = false /\
  main sample_loads no_floats w =
  (say [Title; Rule; LoadingFollowers followers_1_json;
        LoadingFollowing following_json; ExtractingUsernames;
        UnexpectedError TypeError] w, Ok tt).
Proof.
  intros w. split; [reflexivity |]. split; [reflexivity |]. split; [reflexivity |].
  apply (extraction_failure_is_unexpected_error sample_loads no_floats w
           (JInt 5) sample_following); reflexivity.
Defined.

Lemma missing_key_reads_as_everyone_follows_back_witness :
  let w := world_of (Some (File "<followers export>")) None (Some (File "{}")) in
  read_json sample_loads (files w) (resolved_followers_path w) = Ok sample_followers /\
  read_json sample_loads (files w) following_json = Ok (JObj []) /\
  main sample_loads no_floats w =
  (say [Title; Rule; LoadingFollowers followers_1_json;
        LoadingFollowing following_json; ExtractingUsernames;
        FoundFollowers 2; FoundFollowing 0; EveryoneFollowsBack] w, Ok tt).
Proof.
  intros w. split; [reflexivity |]. split; [reflexivity |].
  apply (missing_key_reads_as_everyone_follows_back sample_loads no_floats w
           sample_followers [] [JStr "alice"; JStr "bob"]); reflexivity.
Defined.



Lemma computes_locked_report_world :
  computes sample_loads locked_report_world
    [JStr "alice"; JStr "bob"] [JStr "alice"; JStr "carol"; JStr "dan"].
Proof.
  exists "<followers export>", "<following export>", sample_followers, sample_following.
  repeat split; reflexivity.
Defined.

Lemma unopened_report_changes_nothing_witness :
  files locked_report_world not_following_back_txt = Some Locked /\
  main sample_loads no_floats locked_report_world =
  (say (progress_lines followers_1_json
          [JStr "alice"; JStr "bob"] [JStr "alice"; JStr "carol"; JStr "dan"] ++
        [UnexpectedError OSError]) locked_report_world, Ok tt).
Proof.
  split; [reflexivity |].
  assert (N : find_non_followers [JStr "alice"; JStr "carol"; JStr "dan"]
                [JStr "alice"; JStr "bob"] <> []) by discriminate.
  destruct (unopened_report_changes_nothing sample_loads no_floats
              locked_report_world
              [JStr "alice"; JStr "bob"] [JStr "alice"; JStr "carol"; JStr "dan"]
              computes_locked_report_world N) as (_ & H & _).
  apply H; reflexivity.
Defined.

Lemma computes_surrogate_world :
  computes sample_loads surrogate_world [] [JStr "bob"; JStr lone_surrogate].
Proof.
  exists "{}", "<export with a lone surrogate>", (JObj []), surrogate_following.
  repeat split; reflexivity.
Defined.

Lemma unencodable_name_leaves_partial_report_witness :
  exists w',
    main sample_loads no_floats surrogate_world = (w', Ok tt) /\
    files w' not_following_back_txt = Some (File ("bob" ++ newline)%string) /\
    stdout w' =
      progress_lines followers_1_json [] [JStr "bob"; JStr lone_surrogate] ++
      [UnexpectedError UnicodeEncodeError].
Proof.
  assert (N : find_non_followers [JStr "bob"; JStr lone_surrogate] [] <> [])
    by discriminate.
  assert (W : files surrogate_world not_following_back_txt <> Some Locked)
    by discriminate.
  assert (D : files surrogate_world not_following_back_txt <> Some Dangling)
    by discriminate.
  destruct (unencodable_name_leaves_partial_report sample_loads no_floats
              surrogate_world [] [JStr "bob"; JStr lone_surrogate]
              computes_surrogate_world eq_refl N eq_refl W D)
    as [w' (M & F & _ & O)].
  exists w'. split; [exact M |]. split; [exact F | exact O].
Defined.

